(** * goproxy: listener, caching dialer, backend selection, blocklist updater

    A shallow embedding of four Go source files of the proxy:

    - [httpproxy/transport/direct/dialer.go]  (module [Direct])
    - the listener of package [httpproxy]     (module [Httpproxy])
    - [httpproxy/filters/vps/vps.go] and the [php] filter (modules [Vps], [Php])
    - the [autoproxy] filter and its updater  (module [Autoproxy])

    Go values are modelled as the code has them: durations and instants
    are [Z] nanoseconds, a nil map or nil interface is [None], a panic is
    an explicit outcome, calls into the operating system or into
    libraries that are not part of these files are fields of an
    environment record, and every observable call is logged in a trace. *)

From Stdlib Require Import ZArith String Ascii List Bool Lia.
From stdpp Require Import base option list gmap strings.
Import ListNotations.

Local Open Scope string_scope.
Local Open Scope Z_scope.

(** ** Go standard library functions used by the sources *)

Module GoLib.

(** [time.Duration] and [time.Time] in nanoseconds. *)
Definition Duration := Z.
Definition Time := Z.
Definition Millisecond : Duration := 1000000.
Definition Second : Duration := 1000 * Millisecond.
Definition Minute : Duration := 60 * Second.
Definition Hour : Duration := 60 * Minute.

(** [strings.HasPrefix]. *)
Definition HasPrefix (s p : string) : bool := String.prefix p s.

(** [strings.Contains]: some suffix of [s] starts with [sub]. *)
Fixpoint Contains (s sub : string) : bool :=
  String.prefix sub s ||
  match s with
  | EmptyString => false
  | String _ s' => Contains s' sub
  end.

(** Bytes of a string, last byte first. *)
Definition rev_bytes (s : string) : list ascii :=
  rev (list_ascii_of_string s).

(** [path.Ext]: scan from the end while the byte is not '/', return the
    suffix starting at the first '.' met; the empty string otherwise.
    [seen] holds the bytes already scanned, in string order. *)
Fixpoint ext_scan (r : list ascii) (seen : list ascii) : string :=
  match r with
  | [] => ""
  | c :: r' =>
      if Ascii.eqb c "/" then ""
      else if Ascii.eqb c "." then string_of_list_ascii (c :: seen)
      else ext_scan r' (c :: seen)
  end.

Definition Ext (path : string) : string := ext_scan (rev_bytes path) [].

(** [path.Base]: strip trailing slashes, keep what follows the last
    slash; "." for the empty path and "/" for a path of slashes only. *)
Fixpoint strip_slashes (r : list ascii) : list ascii :=
  match r with
  | c :: r' => if Ascii.eqb c "/" then strip_slashes r' else r
  | [] => []
  end.

Fixpoint last_elem (r : list ascii) (seen : list ascii) : list ascii :=
  match r with
  | [] => seen
  | c :: r' => if Ascii.eqb c "/" then seen else last_elem r' (c :: seen)
  end.

Definition Base (path : string) : string :=
  if String.eqb path "" then "."
  else
    let name := string_of_list_ascii (last_elem (strip_slashes (rev_bytes path)) []) in
    if String.eqb name "" then "/" else name.

(** [net.JoinHostPort]: a host with a colon or a percent sign is
    bracketed. *)
Definition has_byte (c : ascii) (s : string) : bool :=
  existsb (Ascii.eqb c) (list_ascii_of_string s).

Definition JoinHostPort (host port : string) : string :=
  if has_byte ":" host || has_byte "%" host
  then "[" +:+ host +:+ "]:" +:+ port
  else host +:+ ":" +:+ port.

(** [math/rand.Intn n] panics for [n <= 0] and otherwise returns a
    value of [[0, n)]; [raw] is the value the generator draws for this
    call, reduced into the range. *)
Definition Intn (raw : Z) (n : Z) : option Z :=
  if n <=? 0 then None else Some (raw mod n).

End GoLib.

(** ** httpproxy/transport/direct/dialer.go *)

Module Direct.
Import GoLib.

Definition DefaultRetryTimes : Z := 2.
Definition DefaultRetryDelay : Duration := 100 * Millisecond.
Definition DefaultDNSCacheExpires : Duration := Hour.
Definition DefaultDNSCacheSize : Z := 8 * 1024.

(** The interface [lrucache.Cache] of the imported library, as far as
    the dialer uses it.  [cache_Get] and [cache_Set] receive the
    current instant because the library reads the clock itself. *)
Class Cache (C : Type) := {
  NewLRUCache : Z -> C;
  cache_Get : C -> Time -> string -> option string * C;
  cache_Set : C -> Time -> string -> string -> Time -> C
}.

(** An implementation of the interface: a finite map from the key to
    the value and its expiry.  As in the library, [Get] returns the
    entry stored under the key whatever its expiry (it is the
    library's [GetNotStale] that tests it).  The capacity bound is
    left out. *)
Definition ExpiryMap := gmap string (string * Time).

#[global] Instance ExpiryMap_Cache : Cache ExpiryMap := {|
  NewLRUCache := fun _ => ∅;
  cache_Get := fun c _ key =>
    match c !! key with
    | Some (v, _) => (Some v, c)
    | None => (None, c)
    end;
  cache_Set := fun c _ key v expire => <[key := (v, expire)]> c
|}.

Inductive Error :=
| InvalidAddrError (msg : string)
| NetError (msg : string).

(** A connection is identified by the network and address it was
    opened to. *)
Record Conn := { conn_network : string; conn_address : string }.

(** An address of a local interface: [Network()] and [String()]. *)
Record Addr := { addr_Network : string; addr_String : string }.

(** What [Dial] calls outside this file.  [NetDial k] is the [k]-th
    connect attempt made through the embedded [net.Dialer]. *)
Record Env := {
  SplitHostPort : string -> option (string * string);
  LookupIP : string -> option (list string);
  InterfaceAddrs : option (list Addr);
  NetDial : nat -> string -> string -> option Conn * option Error
}.

Inductive Event :=
| EvLookupIP (host : string)
| EvConnect (network address : string)
| EvSleep (d : Duration).

Definition is_connect (ev : Event) : bool :=
  match ev with EvConnect _ _ => true | _ => false end.
Definition is_lookup (ev : Event) : bool :=
  match ev with EvLookupIP _ => true | _ => false end.
Definition is_sleep (ev : Event) : bool :=
  match ev with EvSleep _ => true | _ => false end.

(** The connect calls, the resolutions and the sleeps recorded in a
    trace. *)
Definition connects (t : list Event) : list Event :=
  filter (fun ev => is_connect ev = true) t.
Definition lookups (t : list Event) : list Event :=
  filter (fun ev => is_lookup ev = true) t.
Definition sleeps (t : list Event) : list Event :=
  filter (fun ev => is_sleep ev = true) t.

Section WithCache.
Context {C : Type} `{Cache C}.

(** The struct.  [dnsCache] is an interface value: [None] is the nil
    interface, [Some l] points to the cache stored at [l] in the
    heap.  [loAddrs] is a map used as a set: [None] is the nil map.
    [once] is the done flag of the [sync.Once]. *)
Record Dialer := {
  RetryTimes : Z;
  RetryDelay : Duration;
  DNSCacheExpires : Duration;
  DNSCacheSize : Z;
  dnsCache : option nat;
  loAddrs : option (gset string);
  once : bool
}.

(** The clock, the caches allocated so far and the calls made. *)
Record World := {
  now : Time;
  heap : list C;
  trace : list Event
}.

Definition log (ev : Event) (w : World) : World :=
  {| now := now w; heap := heap w; trace := trace w ++ [ev] |}.

Definition Sleep (d : Duration) (w : World) : World :=
  {| now := now w + d; heap := heap w; trace := trace w ++ [EvSleep d] |}.

Definition alloc (c : C) (w : World) : nat * World :=
  (length (heap w), {| now := now w; heap := heap w ++ [c]; trace := trace w |}).

Definition store (l : nat) (c : C) (w : World) : World :=
  {| now := now w; heap := <[l := c]> (heap w); trace := trace w |}.

(** The number of connect attempts made so far. *)
Definition attempts (w : World) : nat := length (connects (trace w)).

(** The interface addresses of network "ip" added to the set. *)
Definition add_interface_addrs (e : Env) (s : gset string) : gset string :=
  match InterfaceAddrs e with
  | Some addrs =>
      fold_left
        (fun acc a => if String.eqb (addr_Network a) "ip"
                      then acc ∪ {[ addr_String a ]} else acc)
        addrs s
  | None => s
  end.

(** [func (d Dialer) init()].  The receiver is a value: [d] is the
    method's own copy of the struct, and the function literal given
    to [d.once.Do] assigns to the fields of that copy.  The result
    here is the copy as it is when [init] returns; Go discards it. *)
Definition init (e : Env) (d : Dialer) (w : World) : Dialer * World :=
  if once d then (d, w)
  else
    let retryTimes := if RetryTimes d =? 0 then DefaultRetryTimes else RetryTimes d in
    let retryDelay := if RetryDelay d =? 0 then DefaultRetryDelay else RetryDelay d in
    let expires := if DNSCacheExpires d =? 0 then DefaultDNSCacheExpires else DNSCacheExpires d in
    let size := if DNSCacheSize d =? 0 then DefaultDNSCacheSize else DNSCacheSize d in
    let '(l, w1) := alloc (NewLRUCache size) w in
    ({| RetryTimes := retryTimes;
        RetryDelay := retryDelay;
        DNSCacheExpires := expires;
        DNSCacheSize := size;
        dnsCache := Some l;
        loAddrs := Some (add_interface_addrs e {[ "::1" ]});
        once := true |}, w1).

Inductive Outcome :=
| Return (conn : option Conn) (err : option Error)
| Panic (msg : string).

Definition is_tcp (network : string) : bool :=
  String.eqb network "tcp" || String.eqb network "tcp4" || String.eqb network "tcp6".

Definition is_nil_err (err : option Error) : bool :=
  match err with None => true | Some _ => false end.

(** The loop [for i := 0; i < d.RetryTimes; i++]: [n] is the number
    of iterations the condition still admits, [d.RetryTimes - i];
    [r] holds the named results [conn, err]. *)
Fixpoint retry (e : Env) (d : Dialer) (network address : string)
         (n : nat) (i : Z) (r : option Conn * option Error) (w : World)
  : (option Conn * option Error) * World :=
  match n with
  | O => (r, w)
  | S n' =>
      let r1 := NetDial e (attempts w) network address in
      let w1 := log (EvConnect network address) w in
      if is_nil_err (snd r1) || (i =? RetryTimes d - 1) then (r1, w1)
      else retry e d network address n' (i + 1) r1 (Sleep (RetryDelay d) w1)
  end.

Definition dial_loop (e : Env) (d : Dialer) (network address : string) (w : World)
  : Outcome * World :=
  let '((conn, err), w1) :=
    retry e d network address (Z.to_nat (RetryTimes d)) 0 (None, None) w in
  (Return conn err, w1).

(** The miss branch of the cache lookup, for the cache [c] at [l]:
    either the early return with the rejection, or the address to
    connect to. *)
Definition resolve (e : Env) (d : Dialer) (l : nat) (c : C) (address : string) (w : World)
  : (Error + string) * World :=
  match SplitHostPort e address with
  | Some (host, port) =>
      let w1 := log (EvLookupIP host) w in
      match LookupIP e host with
      | Some (ip :: _) =>
          let rejected :=
            match loAddrs d with
            | Some s => bool_decide (ip ∈ s)
            | None => false
            end in
          if rejected
          then (inl (InvalidAddrError ("Invaid DNS Record: " +:+ host +:+ "(" +:+ ip +:+ ")")), w1)
          else
            let addr := JoinHostPort ip port in
            let c1 := cache_Set c (now w1) address addr (now w1 + DNSCacheExpires d) in
            (inr addr, store l c1 w1)
      | _ => (inr address, w1)
      end
  | None => (inr address, w)
  end.

(** [func (d Dialer) Dial(network, address string)].  [d.init()]
    works on its own copy, so the fields read below are those the
    caller's struct had.  A method call on the nil interface panics;
    a location outside the heap, which no Go value holds, is treated
    like nil. *)
Definition Dial (e : Env) (d : Dialer) (network address : string) (w : World)
  : Outcome * World :=
  let '(_, w0) := init e d w in
  if is_tcp network then
    match dnsCache d with
    | None => (Panic "invalid memory address or nil pointer dereference", w0)
    | Some l =>
        match heap w0 !! l with
        | None => (Panic "invalid memory address or nil pointer dereference", w0)
        | Some c =>
            match cache_Get c (now w0) address with
            | (Some addr, c1) => dial_loop e d network addr (store l c1 w0)
            | (None, c1) =>
                match resolve e d l c1 address (store l c1 w0) with
                | (inl err, w1) => (Return None (Some err), w1)
                | (inr addr, w1) => dial_loop e d network addr w1
                end
            end
        end
    end
  else dial_loop e d network address w0.

End WithCache.

Arguments World : clear implicits.

(** What the loop adds to the trace: connects to the one address and
    sleeps of [d.RetryDelay], at most [n] connects, and a sleep only
    between two connects. *)
Definition loop_events (d : Dialer) network address (n : nat) (evs : list Event) : Prop :=
  Forall (fun ev => ev = EvConnect network address \/ ev = EvSleep (RetryDelay d)) evs /\
  (length (connects evs) <= n)%nat /\
  (length (sleeps evs) <= length (connects evs))%nat /\
  lookups evs = [].

(** A [Dialer] as code outside the package can build it: a composite
    literal sets the exported fields, the others have their zero
    value. *)
Definition literal (retryTimes : Z) (retryDelay expires : Duration) (size : Z) : Dialer :=
  {| RetryTimes := retryTimes; RetryDelay := retryDelay;
     DNSCacheExpires := expires; DNSCacheSize := size;
     dnsCache := None; loAddrs := None; once := false |}.

(** The zero value [Dialer{}]. *)
Definition zero_Dialer : Dialer := literal 0 0 0 0.

(** The resolution a dial makes on a miss in the cache: [LookupIP] on
    the host, when the address splits. *)
Definition lookup_events (e : Env) (address : string) : list Event :=
  match SplitHostPort e address with
  | Some (host, _) => [EvLookupIP host]
  | None => []
  end.

(** The calls of a dial that fails [k] times and then connects. *)
Fixpoint attempts_trace (network address : string) (delay : Duration) (k : nat) : list Event :=
  match k with
  | O => [EvConnect network address]
  | S k' => EvConnect network address :: EvSleep delay :: attempts_trace network address delay k'
  end.

End Direct.

(** ** The listener of package httpproxy *)

Module Httpproxy.
Import GoLib.

Definition backlog : nat := 1024.

(** An error value: [is_net] tells whether it implements [net.Error],
    [temporary] what its [Temporary()] returns. *)
Record Error := { err_msg : string; is_net : bool; temporary : bool }.

Definition is_temporary (e : Error) : bool := is_net e && temporary e.

(** A connection: [is_TCPConn] tells whether its dynamic type
    is a pointer to [net.TCPConn], [keepAlive] the period set on it, if any. *)
Record Conn := { conn_id : nat; is_TCPConn : bool; keepAlive : option Duration }.

Record racer := { conn : option Conn; err : option Error }.

(** A buffered channel of capacity [backlog]. *)
Record chan := { buf : list racer; closed : bool }.

(** The wrapped [net.Listener]: whether it uses TLS, whether it has
    been closed, and what its [Close] returns. *)
Record NetListener := { tls : bool; ln_closed : bool; ln_close_err : option Error }.

(** A goroutine started by the listener: the acceptance worker of
    [Accept]. *)
Inductive Goroutine := AcceptWorker.

(** The struct, and with it the goroutines it has started: [once] is
    the done flag of the [sync.Once], [goroutines] holds the worker
    from the moment [once.Do] has started it (the worker stays listed
    when it has returned). *)
Record listener := {
  ln : NetListener;
  lane : chan;
  keepAlivePeriod : Duration;
  stopped : bool;
  once : bool;
  goroutines : list Goroutine
}.

Record ListenOptions := { TLSConfig : bool; KeepAlivePeriod : Duration }.

(** [ListenTCP]: [bound] is the outcome of resolving and binding the
    address. *)
Definition ListenTCP (bound : Error + NetListener) (opts : option ListenOptions)
  : Error + listener :=
  match bound with
  | inl e => inl e
  | inr ln0 =>
      let ln1 :=
        match opts with
        | Some o => if TLSConfig o
                    then {| tls := true; ln_closed := ln_closed ln0; ln_close_err := ln_close_err ln0 |}
                    else ln0
        | None => ln0
        end in
      let keepAlivePeriod :=
        match opts with
        | Some o => if 0 <? KeepAlivePeriod o then KeepAlivePeriod o else 0
        | None => 0
        end in
      inr {| ln := ln1;
             lane := {| buf := []; closed := false |};
             keepAlivePeriod := keepAlivePeriod;
             stopped := false;
             once := false;
             goroutines := [] |}
  end.

(** The outcome of a call that may block on the channel or panic. *)
Inductive Call (A : Type) :=
| Done (l : listener) (a : A)
| Blocked
| Crash (msg : string).
Arguments Done {A}.
Arguments Blocked {A}.
Arguments Crash {A}.

Definition set_lane (l : listener) (ch : chan) : listener :=
  {| ln := ln l; lane := ch; keepAlivePeriod := keepAlivePeriod l;
     stopped := stopped l; once := once l; goroutines := goroutines l |}.

(** [l.lane <- r]. *)
Definition send (r : racer) (l : listener) : Call unit :=
  if closed (lane l) then Crash "send on closed channel"
  else if (length (buf (lane l)) <? backlog)%nat
       then Done (set_lane l {| buf := buf (lane l) ++ [r]; closed := false |}) tt
       else Blocked.

(** [<-l.lane]: a closed and drained channel yields the zero value. *)
Definition recv (l : listener) : Call racer :=
  match buf (lane l) with
  | r :: rest => Done (set_lane l {| buf := rest; closed := closed (lane l) |}) r
  | [] => if closed (lane l) then Done l {| conn := None; err := None |} else Blocked
  end.

(** *** The acceptance worker started by the first [Accept] *)

Inductive WEvent :=
| Published (r : racer)
| Slept (d : Duration).

(** The update of [tempDelay] after a temporary error. *)
Definition next_delay (tempDelay : Duration) : Duration :=
  let d := if tempDelay =? 0 then 5 * Millisecond else tempDelay * 2 in
  if 1 * Second <? d then 1 * Second else d.

(** How one pass through the loop body ends. *)
Inductive Iter :=
| Continue (tempDelay : Duration) (l : listener) (evs : list WEvent)
| Returned (l : listener) (evs : list WEvent)
| SendBlocked
| SendPanic (msg : string).

(** One pass, for the result [r] of [l.ln.Accept()]. *)
Definition worker_iter (r : racer) (tempDelay : Duration) (l : listener) : Iter :=
  match send r l with
  | Crash msg => SendPanic msg
  | Blocked => SendBlocked
  | Done l1 _ =>
      match err r with
      | Some e =>
          if is_temporary e then
            let d := next_delay tempDelay in
            Continue d l1 [Published r; Slept d]
          else Returned l1 [Published r]
      | None => Continue tempDelay l1 [Published r]
      end
  end.

Inductive WorkerEnd :=
| InAccept (tempDelay : Duration)
| Terminated
| InSend
| Panicked (msg : string).

(** The worker run against the successive results of [l.ln.Accept()]:
    where it ends up, the listener, and what it did. *)
Fixpoint worker (script : list racer) (tempDelay : Duration) (l : listener)
  : WorkerEnd * listener * list WEvent :=
  match script with
  | [] => (InAccept tempDelay, l, [])
  | r :: script' =>
      match worker_iter r tempDelay l with
      | Continue d l1 evs =>
          let '(e, l2, evs') := worker script' d l1 in (e, l2, (evs ++ evs')%list)
      | Returned l1 evs => (Terminated, l1, evs)
      | SendBlocked => (InSend, l, [])
      | SendPanic msg => (Panicked msg, l, [])
      end
  end.

(** *** Accept, Close and Add *)

(** [l.once.Do(func() { go func() { ... }() })], lines 83-107: the
    first call starts the acceptance worker; later calls do nothing. *)
Definition once_Do (l : listener) : listener :=
  if once l then l
  else {| ln := ln l; lane := lane l; keepAlivePeriod := keepAlivePeriod l;
          stopped := stopped l; once := true;
          goroutines := goroutines l ++ [AcceptWorker] |}.

(** [Accept]: the worker is started if it has not been, then the call
    receives from the queue and sets the keep-alive period. *)
Definition Accept (l : listener) : Call (option Conn * option Error) :=
  let l0 := once_Do l in
  match recv l0 with
  | Crash msg => Crash msg
  | Blocked => Blocked
  | Done l1 r =>
      match err r with
      | Some e => Done l1 (conn r, Some e)
      | None =>
          if 0 <? keepAlivePeriod l1 then
            match conn r with
            | Some c =>
                if is_TCPConn c
                then Done l1 (Some {| conn_id := conn_id c; is_TCPConn := true;
                                      keepAlive := Some (keepAlivePeriod l1) |}, None)
                else Done l1 (Some c, None)
            | None => Done l1 (None, None)
            end
          else Done l1 (conn r, None)
      end
  end.

Definition Close (l : listener) : Call (option Error) :=
  if stopped l then Done l None
  else if closed (lane l) then Crash "close of closed channel"
  else
    Done {| ln := {| tls := tls (ln l); ln_closed := true; ln_close_err := ln_close_err (ln l) |};
            lane := {| buf := buf (lane l); closed := true |};
            keepAlivePeriod := keepAlivePeriod l;
            stopped := true;
            once := once l;
            goroutines := goroutines l |}
         (ln_close_err (ln l)).

(** The error of [fmt.Errorf] in [Add]; the printed listener is
    abbreviated. *)
Definition closed_error : Error :=
  {| err_msg := "&httpproxy.listener{...} already closed"; is_net := false; temporary := false |}.

Definition Add (c : Conn) (l : listener) : Call (option Error) :=
  if stopped l then Done l (Some closed_error)
  else
    match send {| conn := Some c; err := None |} l with
    | Done l1 _ => Done l1 None
    | Blocked => Blocked
    | Crash msg => Crash msg
    end.

(** *** Histories of a listener *)

(** The steps that change a listener: the three calls, made under the
    mutex or by the single receiver, and a send of the worker. *)
Inductive Op :=
| OpAccept
| OpClose
| OpAdd (c : Conn)
| OpWorkerSend (r : racer).

Definition exec (op : Op) (l : listener) : option listener :=
  match op with
  | OpAccept => match Accept l with Done l1 _ => Some l1 | _ => None end
  | OpClose => match Close l with Done l1 _ => Some l1 | _ => None end
  | OpAdd c => match Add c l with Done l1 _ => Some l1 | _ => None end
  | OpWorkerSend r => match send r l with Done l1 _ => Some l1 | _ => None end
  end.

(** [steps l ops l']: the operations [ops] complete one after the
    other and lead from [l] to [l']. *)
Inductive steps : listener -> list Op -> listener -> Prop :=
| steps_nil l : steps l [] l
| steps_cons l op l1 ops l2 :
    exec op l = Some l1 -> steps l1 ops l2 -> steps l (op :: ops) l2.

(** A listener as [ListenTCP] returns it, after some history. *)
Definition reachable (l : listener) : Prop :=
  exists bound opts l0 ops, ListenTCP bound opts = inr l0 /\ steps l0 ops l.

(** *** The backoff schedule *)

(** The delay slept after the temporary error number [k], counted
    from 0. *)
Definition backoff (k : nat) : Duration :=
  Z.min (5 * Millisecond * 2 ^ Z.of_nat k) (1 * Second).

(** The value of [tempDelay] once [k] temporary errors have
    occurred. *)
Definition delay_after (k : nat) : Duration :=
  match k with
  | O => 0
  | S k' => backoff k'
  end.

(** The listener with [rs] appended to the queue. *)
Definition push (l : listener) (rs : list racer) : listener :=
  set_lane l {| buf := buf (lane l) ++ rs; closed := closed (lane l) |}.

Definition is_temp_racer (r : racer) : bool :=
  match err r with Some e => is_temporary e | None => false end.

Definition is_permanent_racer (r : racer) : bool :=
  match err r with Some e => negb (is_temporary e) | None => false end.

(** What the worker is expected to do for accept results none of
    which is a permanent error, [k] temporary errors having occurred
    before. *)
Fixpoint schedule (rs : list racer) (k : nat) : list WEvent :=
  match rs with
  | [] => []
  | r :: rs' =>
      if is_temp_racer r
      then Published r :: Slept (backoff k) :: schedule rs' (S k)
      else Published r :: schedule rs' k
  end.

Definition count_temps (rs : list racer) : nat :=
  length (filter (fun r => is_temp_racer r = true) rs).

(** *** Sequences of calls *)

(** The listener once [Accept] has run its [once.Do]. *)
Definition started (l : listener) : listener := once_Do l.

(** A goroutine of the listener, its local [tempDelay] being what it
    is, run against the successive results of [l.ln.Accept()]. *)
Definition run (g : Goroutine) (script : list racer) (tempDelay : Duration) (l : listener)
  : WorkerEnd * listener * list WEvent :=
  match g with
  | AcceptWorker => worker script tempDelay l
  end.

(** The racer [Add] sends for a connection. *)
Definition injected (c : Conn) : racer := {| conn := Some c; err := None |}.

(** What [Accept] returns for a racer taken from the queue of [l]: an
    error comes with its connection; a connection with the keep-alive
    period set when one is configured and the connection is TCP. *)
Definition deliver (l : listener) (r : racer) : option Conn * option Error :=
  match err r with
  | Some e => (conn r, Some e)
  | None =>
      match conn r with
      | Some c =>
          if (0 <? keepAlivePeriod l) && is_TCPConn c
          then (Some {| conn_id := conn_id c; is_TCPConn := true;
                        keepAlive := Some (keepAlivePeriod l) |}, None)
          else (Some c, None)
      | None => (None, None)
      end
  end.

(** [Add] called for each connection of [cs] in turn; [None] when one
    of the calls does not enqueue. *)
Fixpoint add_all (cs : list Conn) (l : listener) : option listener :=
  match cs with
  | [] => Some l
  | c :: cs' =>
      match Add c l with
      | Done l1 None => add_all cs' l1
      | _ => None
      end
  end.

(** [Accept] called [n] times in turn; [None] when one of the calls
    blocks. *)
Fixpoint accept_n (n : nat) (l : listener)
  : option (list (option Conn * option Error) * listener) :=
  match n with
  | O => Some ([], l)
  | S n' =>
      match Accept l with
      | Done l1 r =>
          match accept_n n' l1 with
          | Some (rs, l2) => Some (r :: rs, l2)
          | None => None
          end
      | _ => None
      end
  end.

(** The value of [tempDelay] after [k] temporary errors in a row,
    computed by the code's own update. *)
Definition tempDelay_after (k : nat) : Duration := Nat.iter k next_delay 0.

End Httpproxy.

(** ** The upstream-fetch filters: vps/vps.go and the php filter *)

Module Fetch.
Import GoLib.

(** The fields of [http.Request] the filters read. *)
Record Request := {
  Host : string;
  URL_Host : string;
  URL_Path : string;
  Method : string
}.

Record Response := { StatusCode : Z; Body : string }.

Inductive Outcome :=
| Return (resp : option Response) (err : option string)
| Panic (msg : string).

Definition is_media_ext (ext : string) : bool :=
  existsb (String.eqb ext) [".jpg"; ".png"; ".webp"; ".bmp"; ".gif"; ".flv"; ".mp4"].

(** The condition of the [default] case of the switch. *)
Definition is_static (req : Request) : bool :=
  Contains (URL_Host req) "img." ||
  Contains (URL_Host req) "cache." ||
  Contains (URL_Host req) "video." ||
  Contains (URL_Host req) "static." ||
  HasPrefix (URL_Host req) "img" ||
  HasPrefix (URL_Path req) "/static" ||
  HasPrefix (URL_Path req) "/asset" ||
  Contains (URL_Path req) "min.js" ||
  Contains (URL_Path req) "static" ||
  Contains (URL_Path req) "asset" ||
  Contains (URL_Path req) "/cache/".

(** [i := 0] followed by the switch on [path.Ext(req.URL.Path)]; the
    text is the same in both filters.  [n] is [len(f.FetchServers)],
    [raw] the draw of the random generator; [None] is the panic of
    [rand.Intn]. *)
Definition pick (req : Request) (n : Z) (raw : Z) : option Z :=
  let i := 0 in
  let ext := Ext (URL_Path req) in
  if is_media_ext ext then Intn raw n
  else if String.eqb ext "" then
    let name := Base (URL_Path req) in
    if Contains name "play" || Contains name "video" then Intn raw n else Some i
  else
    if is_static req then Intn raw n else Some i.

(** [s[i]] on a slice. *)
Definition index {A} (s : list A) (i : Z) : option A :=
  if i <? 0 then None else s !! Z.to_nat i.

End Fetch.

Module Vps.
Import GoLib Fetch.

Record FetchServer := {
  URL : string;
  Username : string;
  Password : string;
  SSLVerify : bool
}.

(** [Sites] is the matcher's [Match]; [fetch] is the [RoundTrip] of a
    fetch server, declared in another file of the package. *)
Record Filter := {
  FetchServers : list FetchServer;
  Sites : string -> bool;
  fetch : FetchServer -> Request -> Response + string
}.

(** The end of [RoundTrip], once [fetchServer] is chosen. *)
Definition forward (f : Filter) (fetchServer : FetchServer) (req : Request) : Outcome :=
  match fetch f fetchServer req with
  | inr err => Return None (Some err)
  | inl resp => Return (Some resp) None
  end.

Definition RoundTrip (f : Filter) (raw : Z) (req : Request) : Outcome :=
  if negb (Sites f (Host req)) then Return None None
  else
    match pick req (Z.of_nat (length (FetchServers f))) raw with
    | None => Panic "invalid argument to Intn"
    | Some i =>
        match index (FetchServers f) i with
        | None => Panic "index out of range"
        | Some fetchServer => forward f fetchServer req
        end
    end.

(** The call reaches [f.FetchServers[i]] and goes on with that
    server. *)
Definition served_at (f : Filter) (raw : Z) (req : Request) (i : Z) : Prop :=
  exists fs, FetchServers f !! Z.to_nat i = Some fs /\
             RoundTrip f raw req = forward f fs req.

(** An entry of [config.FetchServers] and the configuration, as far as
    [NewFilter] reads them. *)
Record ServerConfig := {
  cfg_URL : string;
  cfg_Username : string;
  cfg_Password : string;
  cfg_SSLVerify : bool
}.

Record Config := {
  cfg_FetchServers : list ServerConfig;
  cfg_Sites : list string
}.

Definition filterName : string := "vps".

(** The loop of [NewFilter] over [config.FetchServers], lines 46-69:
    [url_Parse] is [url.Parse], returning the parsed URL or the error;
    the first URL that does not parse ends the call with its error. *)
Fixpoint build_servers (url_Parse : string -> string + string)
         (l : list ServerConfig) (fetchServers : list FetchServer)
  : list FetchServer + string :=
  match l with
  | [] => inl fetchServers
  | fs :: rest =>
      match url_Parse (cfg_URL fs) with
      | inr err => inr err
      | inl u =>
          build_servers url_Parse rest
            (fetchServers ++ [ {| URL := u; Username := cfg_Username fs;
                                  Password := cfg_Password fs;
                                  SSLVerify := cfg_SSLVerify fs |} ])
      end
  end.

(** The fetch server [NewFilter] builds for an entry of the
    configuration. *)
Definition built (url_Parse : string -> string + string)
           (cfg : ServerConfig) (srv : FetchServer) : Prop :=
  url_Parse (cfg_URL cfg) = inl (URL srv) /\
  Username srv = cfg_Username cfg /\
  Password srv = cfg_Password cfg /\
  SSLVerify srv = cfg_SSLVerify cfg.

(** [NewFilter]: [NewHostMatcher] is the constructor of the matcher,
    [round_trip] the [RoundTrip] of the fetch servers built. *)
Definition NewFilter (url_Parse : string -> string + string)
           (NewHostMatcher : list string -> string -> bool)
           (round_trip : FetchServer -> Request -> Response + string)
           (config : Config) : Filter + string :=
  match build_servers url_Parse (cfg_FetchServers config) [] with
  | inr err => inr err
  | inl fetchServers =>
      inl {| FetchServers := fetchServers;
             Sites := NewHostMatcher (cfg_Sites config);
             fetch := round_trip |}
  end.

End Vps.

Module Php.
Import GoLib Fetch.

Record FetchServer := {
  URL : string;
  Password : string;
  SSLVerify : bool
}.

(** [encodeRequest] and [decodeResponse] are methods of the fetch
    server declared in another file of the package; [Transport] is the
    round-trip filter the requests are sent through: its [RoundTrip]
    returns a response and an error, either of which may be nil (a
    filter that passes a request on returns nil, nil). *)
Record Filter := {
  FetchServers : list FetchServer;
  Transport : Request -> option Response * option string;
  Sites : string -> bool;
  encodeRequest : FetchServer -> Request -> Request + string;
  decodeResponse : FetchServer -> Response -> option Response * option string
}.

(** The end of [RoundTrip], once [fetchServer] is chosen, lines
    128-140: without an error the log line reads [res.StatusCode], on
    a nil [res] too. *)
Definition forward (f : Filter) (fetchServer : FetchServer) (req : Request) : Outcome :=
  match encodeRequest f fetchServer req with
  | inr err => Return None (Some ("PHP encodeRequest: " +:+ err))
  | inl req1 =>
      match Transport f req1 with
      | (_, Some err) => Return None (Some err)
      | (None, None) => Panic "invalid memory address or nil pointer dereference"
      | (Some res, None) =>
          let '(resp, err) := decodeResponse f fetchServer res in
          Return resp err
      end
  end.

Definition RoundTrip (f : Filter) (raw : Z) (req : Request) : Outcome :=
  if negb (Sites f (Host req)) then Return None None
  else
    match pick req (Z.of_nat (length (FetchServers f))) raw with
    | None => Panic "invalid argument to Intn"
    | Some i =>
        match index (FetchServers f) i with
        | None => Panic "index out of range"
        | Some fetchServer => forward f fetchServer req
        end
    end.

(** The call reaches [f.FetchServers[i]] and goes on with that
    server. *)
Definition served_at (f : Filter) (raw : Z) (req : Request) (i : Z) : Prop :=
  exists fs, FetchServers f !! Z.to_nat i = Some fs /\
             RoundTrip f raw req = forward f fs req.

(** An entry of [config.FetchServers] and the configuration. *)
Record ServerConfig := {
  cfg_URL : string;
  cfg_Password : string;
  cfg_SSLVerify : bool
}.

Record Config := {
  cfg_FetchServers : list ServerConfig;
  cfg_Sites : list string;
  cfg_Transport : string
}.

Definition filterName : string := "php".

(** The loop of [NewFilter] over [config.FetchServers], lines 68-82. *)
Fixpoint build_servers (url_Parse : string -> string + string)
         (l : list ServerConfig) (fetchServers : list FetchServer)
  : list FetchServer + string :=
  match l with
  | [] => inl fetchServers
  | fs :: rest =>
      match url_Parse (cfg_URL fs) with
      | inr err => inr err
      | inl u =>
          build_servers url_Parse rest
            (fetchServers ++ [ {| URL := u; Password := cfg_Password fs;
                                  SSLVerify := cfg_SSLVerify fs |} ])
      end
  end.

(** The fetch server [NewFilter] builds for an entry of the
    configuration. *)
Definition built (url_Parse : string -> string + string)
           (cfg : ServerConfig) (srv : FetchServer) : Prop :=
  url_Parse (cfg_URL cfg) = inl (URL srv) /\
  Password srv = cfg_Password cfg /\
  SSLVerify srv = cfg_SSLVerify cfg.

(** A filter as [filters.NewFilter] returns it: [as_RoundTripFilter] is
    its [RoundTrip] when it implements [filters.RoundTripFilter]. *)
Record AnyFilter := {
  any_name : string;
  as_RoundTripFilter : option (Request -> option Response * option string)
}.

(** [NewFilter]: the transport filter is looked up and tested first,
    then the servers are built. *)
Definition NewFilter (filters_NewFilter : string -> AnyFilter + string)
           (url_Parse : string -> string + string)
           (NewHostMatcher : list string -> string -> bool)
           (encode : FetchServer -> Request -> Request + string)
           (decode : FetchServer -> Response -> option Response * option string)
           (config : Config) : Filter + string :=
  match filters_NewFilter (cfg_Transport config) with
  | inr err => inr err
  | inl f1 =>
      match as_RoundTripFilter f1 with
      | None => inr (any_name f1 +:+ " was not a filters.RoundTripFilter")
      | Some f2 =>
          match build_servers url_Parse (cfg_FetchServers config) [] with
          | inr err => inr err
          | inl fetchServers =>
              inl {| FetchServers := fetchServers;
                     Transport := f2;
                     Sites := NewHostMatcher (cfg_Sites config);
                     encodeRequest := encode;
                     decodeResponse := decode |}
          end
      end
  end.

End Php.

(** ** The autoproxy filter and its blocklist updater *)

Module Autoproxy.
Import GoLib.

Definition placeholderPath : string := "/proxy.pac".

(** The period of the ticker of [updater]. *)
Definition tick_period : GoLib.Duration := 10 * Minute.

Record GFWList := {
  URL : string;
  Filename : string;
  Encoding : string;
  Duration : GoLib.Duration
}.

(** Modelled from the spec: the object store of package [storage] is
    not among the sources.  It maps a key to an object with its
    Last-Modified header (empty when it has none) and its body;
    [HeadObject], [DeleteObject] and [PutObject] may fail, and a call
    that fails leaves the store as it was. *)
Record Object := { LastModified : string; Body : string }.

Abbreviation Objects := (gmap string Object).

(** Modelled from the spec: the type [AutoProxy2Pac] is declared in a
    file that is not among the sources.  The generator holds the site
    list and the ruleset it was loaded from by [Read]. *)
Record AutoProxy2Pac := { Sites : list string; Ruleset : string }.

Definition Read (a : AutoProxy2Pac) (content : string) : AutoProxy2Pac :=
  {| Sites := Sites a; Ruleset := content |}.

(** The fields of the filter; [Store] is the content of the store
    the filter holds a handle to, [DateFormat] its date format. *)
Record Filter := {
  Store : Objects;
  DateFormat : string;
  SiteList : list string;
  GFWList_ : GFWList;
  AutoProxy2Pac_ : AutoProxy2Pac
}.

Definition set_Store (f : Filter) (st : Objects) : Filter :=
  {| Store := st; DateFormat := DateFormat f; SiteList := SiteList f;
     GFWList_ := GFWList_ f; AutoProxy2Pac_ := AutoProxy2Pac_ f |}.

(** What the world does during one pass of the loop: the clock, the
    failures of the store and of the network, the remote content. *)
Record Cycle := {
  now : Time;
  head_fails : bool;
  new_request_fails : bool;
  round_trip : option string;
  read_fails : bool;
  delete_fails : bool;
  put_fails : bool;
  put_stamp : string
}.

Inductive Trigger := Manual | Tick.

Inductive Event :=
| InfoManual
| HeadObject (key : string)
| WarnStat
| WarnNoLastModified
| WarnParse
| WarnNewRequest
| InfoDownloading
| RoundTrip_ (url : string)
| WarnRoundTrip
| WarnReadAll
| DeleteObject (key : string)
| WarnDelete
| PutObject (key data : string)
| WarnPut
| InfoUpdateOK.

#[export] Instance Event_eq_dec : EqDecision Event.
Proof. solve_decision. Defined.

Section WithLibraries.
(** [time.Parse layout value] and the base64 decoding of a whole
    stream ([None] when the input is corrupt). *)
Variable time_Parse : string -> string -> option Time.
Variable base64_decode : string -> option string.

(** The staleness test of a timer tick, lines 476-494: [inl] is a
    [continue], [inr] the value given to [needUpdate]. *)
Definition stale (c : Cycle) (f : Filter) : list Event + bool :=
  let key := Filename (GFWList_ f) in
  match (if head_fails c then None else Store f !! key) with
  | None => inl [HeadObject key; WarnStat]
  | Some h =>
      let lm := LastModified h in
      if String.eqb lm "" then inl [HeadObject key; WarnNoLastModified]
      else
        match time_Parse (DateFormat f) lm with
        | None => inl [HeadObject key; WarnParse]
        | Some modTime => inr (modTime + Duration (GFWList_ f) <? now c)
        end
  end.

(** What [ioutil.ReadAll] returns for the body of the response,
    lines 512-525: the body itself or, for the encoding "base64",
    its decoding; [None] is a read or decode error. *)
Definition read_all (c : Cycle) (g : GFWList) (body : string) : option string :=
  if read_fails c then None
  else if String.eqb (Encoding g) "base64" then base64_decode body
  else Some body.

(** The update proper, lines 498-540. *)
Definition update (c : Cycle) (f : Filter) : Filter * list Event :=
  let g := GFWList_ f in
  if new_request_fails c then (f, [WarnNewRequest])
  else
    match round_trip c with
    | None => (f, [InfoDownloading; RoundTrip_ (URL g); WarnRoundTrip])
    | Some body =>
        match read_all c g body with
        | None => (f, [InfoDownloading; RoundTrip_ (URL g); WarnReadAll])
        | Some data =>
            if delete_fails c
            then (f, [InfoDownloading; RoundTrip_ (URL g); DeleteObject (Filename g); WarnDelete])
            else
              let f1 := set_Store f (delete (Filename g) (Store f)) in
              if put_fails c
              then (f1, [InfoDownloading; RoundTrip_ (URL g); DeleteObject (Filename g);
                         PutObject (Filename g) data; WarnPut])
              else
                (set_Store f1 (<[Filename g := {| LastModified := put_stamp c; Body := data |}]> (Store f1)),
                 [InfoDownloading; RoundTrip_ (URL g); DeleteObject (Filename g);
                  PutObject (Filename g) data; InfoUpdateOK])
        end
    end.

(** One pass through the body of the [for] loop of [updater], for
    the trigger the [select] received. *)
Definition updater_pass (tr : Trigger) (c : Cycle) (f : Filter) : Filter * list Event :=
  match tr with
  | Manual =>
      let '(f1, evs) := update c f in (f1, InfoManual :: evs)
  | Tick =>
      match stale c f with
      | inl evs => (f, evs)
      | inr needUpdate =>
          if needUpdate
          then let '(f1, evs) := update c f in (f1, HeadObject (Filename (GFWList_ f)) :: evs)
          else (f, [HeadObject (Filename (GFWList_ f))])
      end
  end.

(** The loop, run for the triggers that arrive; it has no exit. *)
Fixpoint updater (inputs : list (Trigger * Cycle)) (f : Filter) : Filter * list Event :=
  match inputs with
  | [] => (f, [])
  | (tr, c) :: rest =>
      let '(f1, evs) := updater_pass tr c f in
      let '(f2, evs') := updater rest f1 in
      (f2, (evs ++ evs')%list)
  end.

(** The part of [NewFilter] that builds the generator, lines
    410-435: the stored copy is read, as plain text when it starts
    with the marker, through a base64 decoder otherwise.  With
    fewer than 20 bytes to peek at the reader stays nil, which is
    taken as a failure of [Read].  [None] is the error return. *)
Definition load (sites : list string) (st : Objects) (key : string) : option AutoProxy2Pac :=
  let autoproxy2pac := {| Sites := sites; Ruleset := "" |} in
  match st !! key with
  | None => None
  | Some object =>
      if (String.length (Body object) <? 20)%nat then None
      else if HasPrefix (Body object) "[AutoProxy "
           then Some (Read autoproxy2pac (Body object))
           else option_map (Read autoproxy2pac) (base64_decode (Body object))
  end.

Record Request := { RequestURI : string; Query : string }.

(** Modelled from the spec: the PAC script is a function of the
    generator's state and of the request. *)
Variable GeneratePac : AutoProxy2Pac -> Request -> string.

Record Response := { StatusCode : Z; ContentLength : Z; Body_ : string }.

(** [RoundTrip] of the filter: whether a flush is sent to the
    updater, and the response ([None] passes the request on). *)
Definition RoundTrip (f : Filter) (req : Request) : bool * option Response :=
  if negb (HasPrefix (RequestURI req) placeholderPath) then (false, None)
  else
    let data := GeneratePac (AutoProxy2Pac_ f) req in
    (Contains (Query req) "flush",
     Some {| StatusCode := 200;
             ContentLength := Z.of_nat (String.length data);
             Body_ := data |}).

End WithLibraries.

(** The remote fetches and the writes to the store recorded in the
    events of the updater. *)
Definition is_fetch (ev : Event) : bool :=
  match ev with RoundTrip_ _ => true | _ => false end.

Definition is_head (ev : Event) : bool :=
  match ev with HeadObject _ => true | _ => false end.

Definition fetches (evs : list Event) : list Event :=
  filter (fun ev => is_fetch ev = true) evs.

End Autoproxy.

(** ** The direct filter: RoundTrip *)

Module DirectFilter.
Import GoLib.

Definition filterName : string := "direct".

(** An error: [ErrLoopbackAddr] is the package's own error value, which
    [RoundTrip] compares with; any other error is its text. *)
Inductive Error :=
| ErrLoopbackAddr
| OtherError (msg : string).

Record Request := {
  Method : string;
  Host : string;
  URL : string;
  RemoteAddr : string
}.

Record Response := {
  Status : string;
  StatusCode : Z;
  Proto : string;
  ProtoMajor : Z;
  ProtoMinor : Z;
  Request_ : option Request;
  Close : bool;
  ContentLength : Z;
  Body : string
}.

(** The response writer of the context: whether it implements
    [http.Hijacker] and [http.Flusher], and the error of its
    [Hijack()], if any. *)
Record ResponseWriter := {
  is_Hijacker : bool;
  is_Flusher : bool;
  Hijack_err : option string
}.

Record Context := { rw : ResponseWriter; hijacked : bool }.

Definition SetHijacked (ctx : Context) (b : bool) : Context :=
  {| rw := rw ctx; hijacked := b |}.

(** The transport of the filter: its [Dial], returning the number of
    the connection or an error, and its [RoundTrip]. *)
Record Transport := {
  Dial : string -> string -> nat + Error;
  transport_RoundTrip : Request -> Response + Error
}.

(** The conditions under which a CONNECT request has its 200 status
    written: the dial succeeds and the writer has both capabilities. *)
Definition tunnel_ready (t : Transport) (ctx : Context) (req : Request) : Prop :=
  (exists rconn, Dial t "tcp" (Host req) = inl rconn) /\
  is_Hijacker (rw ctx) = true /\
  is_Flusher (rw ctx) = true.

(** The parts of what [RoundTrip] returns. *)
Definition ctx_of {E} (r : (Context * option Response * option Error) * E) : Context :=
  fst (fst (fst r)).
Definition resp_of {E} (r : (Context * option Response * option Error) * E) : option Response :=
  snd (fst (fst r)).
Definition err_of {E} (r : (Context * option Response * option Error) * E) : option Error :=
  snd (fst r).

Inductive Endpoint := Remote | Local.

Inductive Event :=
| EvDial (network address : string)
| EvWriteHeader (code : Z)
| EvFlush
| EvHijack
| EvGoIoCopy (a b : Endpoint)
| EvIoCopy (a b : Endpoint)
| EvCloseLocal
| EvTransport (req : Request)
| EvServeFile (req : Request).

(** The response built for a transport error whose text is [data]. *)
Definition bad_gateway (req : Request) (data : string) : Response :=
  {| Status := "502 Bad Gateway";
     StatusCode := 502;
     Proto := "HTTP/1.1";
     ProtoMajor := 1;
     ProtoMinor := 1;
     Request_ := Some req;
     Close := true;
     ContentLength := Z.of_nat (String.length data);
     Body := data |}.

(** [RoundTrip], lines 245-314: the context, the response and the
    error returned, and the calls made. *)
Definition RoundTrip (t : Transport) (ctx : Context) (req : Request)
  : (Context * option Response * option Error) * list Event :=
  if String.eqb (Method req) "CONNECT" then
    match Dial t "tcp" (Host req) with
    | inr err => ((ctx, None, Some err), [EvDial "tcp" (Host req)])
    | inl rconn =>
        if negb (is_Hijacker (rw ctx))
        then ((ctx, None, Some (OtherError "http.ResponseWriter does not implments http.Hijacker")),
              [EvDial "tcp" (Host req)])
        else if negb (is_Flusher (rw ctx))
        then ((ctx, None, Some (OtherError "http.ResponseWriter does not implments http.Flusher")),
              [EvDial "tcp" (Host req)])
        else
          match Hijack_err (rw ctx) with
          | Some err =>
              ((ctx, None, Some (OtherError ("Hijack() error: " +:+ err))),
               [EvDial "tcp" (Host req); EvWriteHeader 200; EvFlush; EvHijack])
          | None =>
              ((SetHijacked ctx true, None, None),
               [EvDial "tcp" (Host req); EvWriteHeader 200; EvFlush; EvHijack;
                EvGoIoCopy Remote Local; EvIoCopy Local Remote; EvCloseLocal])
          end
    end
  else if String.eqb (Method req) "PRI" then ((ctx, None, None), [])
  else
    match transport_RoundTrip t req with
    | inr ErrLoopbackAddr =>
        ((SetHijacked ctx true, None, None), [EvTransport req; EvServeFile req])
    | inr (OtherError data) =>
        ((ctx, Some (bad_gateway req data), None), [EvTransport req])
    | inl resp => ((ctx, Some resp, None), [EvTransport req])
    end.

End DirectFilter.

(** ** Concrete inputs used in the examples below *)

Module Samples.
Import GoLib.

Definition vps_server (u : string) : Vps.FetchServer :=
  {| Vps.URL := u; Vps.Username := "u"; Vps.Password := "p"; Vps.SSLVerify := true |}.

Definition vps_filter (servers : list Vps.FetchServer) : Vps.Filter :=
  {| Vps.FetchServers := servers;
     Vps.Sites := fun host => String.eqb host "example.com";
     Vps.fetch := fun fs _ => inl {| Fetch.StatusCode := 200; Fetch.Body := Vps.URL fs |} |}.

Definition php_server (u : string) : Php.FetchServer :=
  {| Php.URL := u; Php.Password := "p"; Php.SSLVerify := true |}.

Definition php_filter (servers : list Php.FetchServer) : Php.Filter :=
  {| Php.FetchServers := servers;
     Php.Transport := fun req =>
       (Some {| Fetch.StatusCode := 200; Fetch.Body := Fetch.URL_Host req |}, None);
     Php.Sites := fun host => String.eqb host "example.com";
     Php.encodeRequest := fun fs req =>
       inl {| Fetch.Host := Php.URL fs; Fetch.URL_Host := Php.URL fs;
              Fetch.URL_Path := "/"; Fetch.Method := "POST" |};
     Php.decodeResponse := fun _ res => (Some res, None) |}.

Definition three_vps := vps_filter [vps_server "a"; vps_server "b"; vps_server "c"].
Definition three_php := php_filter [php_server "a"; php_server "b"; php_server "c"].

(** A resolver in which localhost is the IPv6 loopback address, and
    a network whose first connect attempt times out. *)
Definition env : Direct.Env :=
  {| Direct.SplitHostPort := fun a =>
       if String.eqb a "localhost:80" then Some ("localhost", "80")
       else if String.eqb a "example.com:80" then Some ("example.com", "80")
       else None;
     Direct.LookupIP := fun h =>
       if String.eqb h "localhost" then Some ["::1"]
       else if String.eqb h "example.com" then Some ["93.184.216.34"]
       else None;
     Direct.InterfaceAddrs :=
       Some [ {| Direct.addr_Network := "ip+net"; Direct.addr_String := "192.168.1.5/24" |} ];
     Direct.NetDial := fun k network address =>
       if (k <? 1)%nat then (None, Some (Direct.NetError "i/o timeout"))
       else (Some {| Direct.conn_network := network; Direct.conn_address := address |}, None) |}.

Definition world0 : Direct.World Direct.ExpiryMap :=
  {| Direct.now := 0; Direct.heap := []; Direct.trace := [] |}.

(** A dialer whose own fields hold what [init] would assign, and a
    world whose heap holds its empty cache. *)
Definition populated : Direct.Dialer :=
  {| Direct.RetryTimes := 2; Direct.RetryDelay := 100 * GoLib.Millisecond;
     Direct.DNSCacheExpires := GoLib.Hour; Direct.DNSCacheSize := 8192;
     Direct.dnsCache := Some 0%nat; Direct.loAddrs := Some {[ "::1" ]};
     Direct.once := true |}.

Definition world1 : Direct.World Direct.ExpiryMap :=
  {| Direct.now := 0; Direct.heap := [∅]; Direct.trace := [] |}.

(** Two dials of the same address, one second apart, on a dialer whose
    TTL is set to one hour. *)
Definition hour_Dialer : Direct.Dialer := Direct.literal 0 0 GoLib.Hour 0.

Definition first_dial : Direct.Outcome * Direct.World Direct.ExpiryMap :=
  Direct.Dial env hour_Dialer "tcp" "example.com:80" world0.

Definition second_dial : Direct.Outcome * Direct.World Direct.ExpiryMap :=
  Direct.Dial env hour_Dialer "tcp" "example.com:80" (Direct.Sleep GoLib.Second (snd first_dial)).

(** A store whose dates are seconds written in decimal, two of which
    are known here. *)
Definition time_Parse (layout value : string) : option Time :=
  if String.eqb value "1000" then Some (1000 * Second)
  else if String.eqb value "9000" then Some (9000 * Second)
  else None.

Definition base64_decode (s : string) : option string :=
  if String.eqb s "fHxuZXcuZXhhbXBsZQ==" then Some "||new.example" else None.

Definition old_rules : string := "[AutoProxy 0.2.9] ||old.example".
Definition new_rules : string := "[AutoProxy 0.2.9] ||new.example".

Definition gfwlist : Autoproxy.GFWList :=
  {| Autoproxy.URL := "https://example.org/gfwlist.txt";
     Autoproxy.Filename := "gfwlist.txt";
     Autoproxy.Encoding := "";
     Autoproxy.Duration := 7200 * Second |}.

(** The filter [NewFilter] returns for a store holding the old
    rules, last modified at second 1000. *)
Definition filter0 : Autoproxy.Filter :=
  {| Autoproxy.Store :=
       {[ "gfwlist.txt" := {| Autoproxy.LastModified := "1000"; Autoproxy.Body := old_rules |} ]};
     Autoproxy.DateFormat := "seconds";
     Autoproxy.SiteList := ["example.com"];
     Autoproxy.GFWList_ := gfwlist;
     Autoproxy.AutoProxy2Pac_ :=
       {| Autoproxy.Sites := ["example.com"]; Autoproxy.Ruleset := old_rules |} |}.

(** A pass at second [t] in which the remote list is the new rules
    and nothing fails. *)
Definition cycle_ok (t : Z) : Autoproxy.Cycle :=
  {| Autoproxy.now := t * Second;
     Autoproxy.head_fails := false;
     Autoproxy.new_request_fails := false;
     Autoproxy.round_trip := Some new_rules;
     Autoproxy.read_fails := false;
     Autoproxy.delete_fails := false;
     Autoproxy.put_fails := false;
     Autoproxy.put_stamp := "9000" |}.

(** The same pass with a store that fails to write the new copy. *)
Definition cycle_put_fails (t : Z) : Autoproxy.Cycle :=
  {| Autoproxy.now := t * Second;
     Autoproxy.head_fails := false;
     Autoproxy.new_request_fails := false;
     Autoproxy.round_trip := Some new_rules;
     Autoproxy.read_fails := false;
     Autoproxy.delete_fails := false;
     Autoproxy.put_fails := true;
     Autoproxy.put_stamp := "9000" |}.

(** A manual flush at second 9000, with a store that works and with
    one that fails to write. *)
Definition flush_ok : Autoproxy.Filter * list Autoproxy.Event :=
  Autoproxy.updater_pass time_Parse base64_decode Autoproxy.Manual (cycle_ok 9000) filter0.

Definition flush_put_fails : Autoproxy.Filter * list Autoproxy.Event :=
  Autoproxy.updater_pass time_Parse base64_decode Autoproxy.Manual (cycle_put_fails 9000) filter0.

(** A generator that prints its ruleset. *)
Definition GeneratePac (a : Autoproxy.AutoProxy2Pac) (req : Autoproxy.Request) : string :=
  Autoproxy.Ruleset a.

Definition temp_error : Httpproxy.Error :=
  {| Httpproxy.err_msg := "too many open files"; Httpproxy.is_net := true;
     Httpproxy.temporary := true |}.

Definition perm_error : Httpproxy.Error :=
  {| Httpproxy.err_msg := "use of closed network connection"; Httpproxy.is_net := true;
     Httpproxy.temporary := false |}.

Definition tcp_conn (n : nat) : Httpproxy.Conn :=
  {| Httpproxy.conn_id := n; Httpproxy.is_TCPConn := true; Httpproxy.keepAlive := None |}.

Definition accepted (n : nat) : Httpproxy.racer :=
  {| Httpproxy.conn := Some (tcp_conn n); Httpproxy.err := None |}.

Definition failed (e : Httpproxy.Error) : Httpproxy.racer :=
  {| Httpproxy.conn := None; Httpproxy.err := Some e |}.

Definition raw_listener : Httpproxy.NetListener :=
  {| Httpproxy.tls := false; Httpproxy.ln_closed := false; Httpproxy.ln_close_err := None |}.

(** The listener [ListenTCP] returns without options. *)
Definition fresh_listener : Httpproxy.listener :=
  {| Httpproxy.ln := raw_listener;
     Httpproxy.lane := {| Httpproxy.buf := []; Httpproxy.closed := false |};
     Httpproxy.keepAlivePeriod := 0;
     Httpproxy.stopped := false;
     Httpproxy.once := false;
     Httpproxy.goroutines := [] |}.

(** The listener once a first [Accept] has started the worker and
    waits on the empty queue. *)
Definition waiting_listener : Httpproxy.listener :=
  {| Httpproxy.ln := raw_listener;
     Httpproxy.lane := {| Httpproxy.buf := []; Httpproxy.closed := false |};
     Httpproxy.keepAlivePeriod := 0;
     Httpproxy.stopped := false;
     Httpproxy.once := true;
     Httpproxy.goroutines := [Httpproxy.AcceptWorker] |}.

Definition get (path : string) : Fetch.Request :=
  {| Fetch.Host := "example.com"; Fetch.URL_Host := "example.com";
     Fetch.URL_Path := path; Fetch.Method := "GET" |}.

End Samples.

Module MoreSamples.
Import GoLib.

(** A dialer with three attempts and 50 ms between them, and a network
    that is down. *)
Definition three_tries : Direct.Dialer := Direct.literal 3 (50 * Millisecond) 0 0.

Definition env_down : Direct.Env :=
  {| Direct.SplitHostPort := fun _ => None;
     Direct.LookupIP := fun _ => None;
     Direct.InterfaceAddrs := None;
     Direct.NetDial := fun _ _ _ => (None, Some (Direct.NetError "network is unreachable")) |}.

(** A world in which the cache of [Samples.populated] already holds a
    resolution of example.com:80, valid for an hour. *)
Definition world_cached : Direct.World Direct.ExpiryMap :=
  {| Direct.now := 0;
     Direct.heap := [ {[ "example.com:80" := ("10.0.0.7:80", Hour) ]} ];
     Direct.trace := [] |}.

(** A listener with a keep-alive period of 30 s, and connections of
    both kinds. *)
Definition keepalive_listener : Httpproxy.listener :=
  {| Httpproxy.ln := Samples.raw_listener;
     Httpproxy.lane := {| Httpproxy.buf := []; Httpproxy.closed := false |};
     Httpproxy.keepAlivePeriod := 30 * Second;
     Httpproxy.stopped := false;
     Httpproxy.once := false;
     Httpproxy.goroutines := [] |}.

Definition unix_conn (n : nat) : Httpproxy.Conn :=
  {| Httpproxy.conn_id := n; Httpproxy.is_TCPConn := false; Httpproxy.keepAlive := None |}.

(** A listener closed with one connection left in its queue. *)
Definition closed_listener : Httpproxy.listener :=
  {| Httpproxy.ln := {| Httpproxy.tls := false; Httpproxy.ln_closed := true;
                        Httpproxy.ln_close_err := None |};
     Httpproxy.lane := {| Httpproxy.buf := [Samples.accepted 1]; Httpproxy.closed := true |};
     Httpproxy.keepAlivePeriod := 0;
     Httpproxy.stopped := true;
     Httpproxy.once := false;
     Httpproxy.goroutines := [] |}.

(** A listener that has served one connection and was closed with
    another left in its queue: the worker has been started. *)
Definition served_closed_listener : Httpproxy.listener :=
  {| Httpproxy.ln := {| Httpproxy.tls := false; Httpproxy.ln_closed := true;
                        Httpproxy.ln_close_err := None |};
     Httpproxy.lane := {| Httpproxy.buf := [Httpproxy.injected (unix_conn 2)];
                          Httpproxy.closed := true |};
     Httpproxy.keepAlivePeriod := 0;
     Httpproxy.stopped := true;
     Httpproxy.once := true;
     Httpproxy.goroutines := [Httpproxy.AcceptWorker] |}.

(** The php filter of [Samples.three_php] over a transport filter that
    passes every request on: its [RoundTrip] returns nil, nil. *)
Definition passing_php : Php.Filter :=
  {| Php.FetchServers := Php.FetchServers Samples.three_php;
     Php.Transport := fun _ => (None, None);
     Php.Sites := Php.Sites Samples.three_php;
     Php.encodeRequest := Php.encodeRequest Samples.three_php;
     Php.decodeResponse := Php.decodeResponse Samples.three_php |}.

(** Configurations of the vps and php filters; a URL parses unless it
    starts with a colon. *)
Definition url_Parse (u : string) : string + string :=
  if String.prefix ":" u then inr "missing protocol scheme" else inl u.

Definition NewHostMatcher (sites : list string) (host : string) : bool :=
  existsb (String.eqb host) sites.

Definition vps_config (urls : list string) : Vps.Config :=
  {| Vps.cfg_FetchServers :=
       map (fun u => {| Vps.cfg_URL := u; Vps.cfg_Username := "u";
                        Vps.cfg_Password := "p"; Vps.cfg_SSLVerify := true |}) urls;
     Vps.cfg_Sites := ["example.com"] |}.

Definition php_config (urls : list string) : Php.Config :=
  {| Php.cfg_FetchServers :=
       map (fun u => {| Php.cfg_URL := u; Php.cfg_Password := "p";
                        Php.cfg_SSLVerify := true |}) urls;
     Php.cfg_Sites := ["example.com"];
     Php.cfg_Transport := "direct" |}.

Definition filters_NewFilter (name : string) : Php.AnyFilter + string :=
  if String.eqb name "direct"
  then inl {| Php.any_name := "direct";
              Php.as_RoundTripFilter := Some (Php.Transport Samples.three_php) |}
  else inr "filter not registered".

(** A transport of the direct filter that reaches every host but
    localhost, and response writers with and without hijacking. *)
Definition transport : DirectFilter.Transport :=
  {| DirectFilter.Dial := fun _ address =>
       if String.prefix "localhost" address
       then inr (DirectFilter.OtherError "connection refused") else inl 7%nat;
     DirectFilter.transport_RoundTrip := fun req =>
       if String.prefix "localhost" (DirectFilter.Host req)
       then inr (DirectFilter.OtherError "connection refused")
       else inl {| DirectFilter.Status := "200 OK"; DirectFilter.StatusCode := 200;
                   DirectFilter.Proto := "HTTP/1.1"; DirectFilter.ProtoMajor := 1;
                   DirectFilter.ProtoMinor := 1; DirectFilter.Request_ := Some req;
                   DirectFilter.Close := false; DirectFilter.ContentLength := 2;
                   DirectFilter.Body := "ok" |} |}.

Definition full_writer : DirectFilter.Context :=
  {| DirectFilter.rw := {| DirectFilter.is_Hijacker := true; DirectFilter.is_Flusher := true;
                           DirectFilter.Hijack_err := None |};
     DirectFilter.hijacked := false |}.

Definition request (method host : string) : DirectFilter.Request :=
  {| DirectFilter.Method := method; DirectFilter.Host := host;
     DirectFilter.URL := "http://" +:+ host +:+ "/"; DirectFilter.RemoteAddr := "10.0.0.1:5000" |}.

(** A store that stamps what it writes with the time of the write. *)
Definition cycle_at (t : Z) (stamp : string) : Autoproxy.Cycle :=
  {| Autoproxy.now := t * Second;
     Autoproxy.head_fails := false;
     Autoproxy.new_request_fails := false;
     Autoproxy.round_trip := Some Samples.new_rules;
     Autoproxy.read_fails := false;
     Autoproxy.delete_fails := false;
     Autoproxy.put_fails := false;
     Autoproxy.put_stamp := stamp |}.

(** A filter whose store holds a second object beside the list. *)
Definition filter_two : Autoproxy.Filter :=
  {| Autoproxy.Store :=
       <[ "other.json" := {| Autoproxy.LastModified := "1000"; Autoproxy.Body := "{}" |} ]>
         (Autoproxy.Store Samples.filter0);
     Autoproxy.DateFormat := "seconds";
     Autoproxy.SiteList := ["example.com"];
     Autoproxy.GFWList_ := Samples.gfwlist;
     Autoproxy.AutoProxy2Pac_ := Autoproxy.AutoProxy2Pac_ Samples.filter0 |}.

End MoreSamples.

(** * Properties *)

(** ** Backend selection *)

Module FetchProps.
Import GoLib Fetch.

Lemma Intn_range raw n i : Intn raw n = Some i -> 0 <= i < n.
Proof.
  unfold Intn. destruct (Z.leb_spec n 0); [discriminate|].
  intros [= <-]. apply Z.mod_pos_bound. lia.
Qed.

Lemma Intn_pos raw n : 0 < n -> Intn raw n = Some (raw mod n).
Proof.
  intros Hn. unfold Intn. destruct (Z.leb_spec n 0); [lia | reflexivity].
Qed.

Lemma Intn_nonpos raw n : n <= 0 -> Intn raw n = None.
Proof.
  intros Hn. unfold Intn. destruct (Z.leb_spec n 0); [reflexivity | lia].
Qed.

(** The three cases of the switch. *)
Lemma pick_media req n raw :
  is_media_ext (Ext (URL_Path req)) = true -> pick req n raw = Intn raw n.
Proof. intros Hm. unfold pick. now rewrite Hm. Qed.

Lemma pick_other req n raw :
  is_media_ext (Ext (URL_Path req)) = false ->
  Ext (URL_Path req) <> "" ->
  is_static req = false ->
  pick req n raw = Some 0.
Proof.
  intros Hm He Hs. unfold pick. rewrite Hm, Hs.
  destruct (String.eqb_spec (Ext (URL_Path req)) ""); [contradiction | reflexivity].
Qed.

(** Whatever the branch, the index is either a draw or 0. *)
Lemma pick_cases req n raw :
  pick req n raw = Intn raw n \/ pick req n raw = Some 0.
Proof.
  unfold pick.
  destruct (is_media_ext _); [now left|].
  destruct (String.eqb _ ""); [destruct (_ || _) | destruct (is_static req)]; auto.
Qed.

Lemma pick_in_range req n raw i : 0 < n -> pick req n raw = Some i -> 0 <= i < n.
Proof.
  intros Hn Hp. destruct (pick_cases req n raw) as [E|E]; rewrite E in Hp.
  - eauto using Intn_range.
  - injection Hp as <-. lia.
Qed.

Lemma index_in_range {A} (s : list A) i :
  0 <= i < Z.of_nat (length s) -> exists x, s !! Z.to_nat i = Some x /\ index s i = Some x.
Proof.
  intros Hi. destruct (lookup_lt_is_Some_2 s (Z.to_nat i)) as [x Hx]; [lia|].
  exists x. split; [exact Hx|]. unfold index.
  destruct (Z.ltb_spec i 0); [lia | exact Hx].
Qed.

Lemma index_nil {A} i : index (@nil A) i = None.
Proof. unfold index. now destruct (i <? 0). Qed.

(** A matched request on a non-empty list is forwarded to the server
    at the picked index. *)
Lemma vps_RoundTrip_forward f raw req i :
  Vps.Sites f (Host req) = true ->
  0 <= i < Z.of_nat (length (Vps.FetchServers f)) ->
  pick req (Z.of_nat (length (Vps.FetchServers f))) raw = Some i ->
  Vps.served_at f raw req i.
Proof.
  intros Hs Hi Hp. destruct (index_in_range _ _ Hi) as (fs & Hl & Hx).
  exists fs. split; [exact Hl|].
  unfold Vps.RoundTrip. now rewrite Hs, Hp, Hx.
Qed.

Lemma php_RoundTrip_forward f raw req i :
  Php.Sites f (Host req) = true ->
  0 <= i < Z.of_nat (length (Php.FetchServers f)) ->
  pick req (Z.of_nat (length (Php.FetchServers f))) raw = Some i ->
  Php.served_at f raw req i.
Proof.
  intros Hs Hi Hp. destruct (index_in_range _ _ Hi) as (fs & Hl & Hx).
  exists fs. split; [exact Hl|].
  unfold Php.RoundTrip. now rewrite Hs, Hp, Hx.
Qed.

Lemma forward_no_panic_vps f fs req msg : Vps.forward f fs req <> Panic msg.
Proof. unfold Vps.forward. now destruct (Vps.fetch f fs req). Qed.

Lemma vps_empty_panics f raw req :
  Vps.Sites f (Host req) = true -> Vps.FetchServers f = [] ->
  exists msg, Vps.RoundTrip f raw req = Panic msg.
Proof.
  intros Hs He. unfold Vps.RoundTrip. rewrite Hs, He. cbn [negb length].
  destruct (pick req _ raw) as [i|]; [rewrite index_nil|]; eauto.
Qed.

Lemma php_empty_panics f raw req :
  Php.Sites f (Host req) = true -> Php.FetchServers f = [] ->
  exists msg, Php.RoundTrip f raw req = Panic msg.
Proof.
  intros Hs He. unfold Php.RoundTrip. rewrite Hs, He. cbn [negb length].
  destruct (pick req _ raw) as [i|]; [rewrite index_nil|]; eauto.
Qed.

Lemma pick_some req n raw : 0 < n -> exists i, pick req n raw = Some i.
Proof.
  intros Hn. destruct (pick_cases req n raw) as [E|E]; rewrite E; eauto.
  rewrite Intn_pos by lia. eauto.
Qed.

Lemma pick_choice req n raw i :
  0 < n -> pick req n raw = Some i -> i = 0 \/ i = raw mod n.
Proof.
  intros Hn Hp. destruct (pick_cases req n raw) as [E|E]; rewrite E in Hp.
  - rewrite Intn_pos in Hp by lia. injection Hp as <-. now right.
  - injection Hp as <-. now left.
Qed.

Lemma length_pos {A} (s : list A) : s <> [] -> 0 < Z.of_nat (length s).
Proof. destruct s; [congruence | simpl; lia]. Qed.

(** C7: for a request whose host matches the site list and a
    non-empty list of [n] fetch servers, in the vps filter and in the
    php filter alike: when the extension of the URL path is one of
    .jpg, .png, .webp, .bmp, .gif, .flv, .mp4 the index is the value
    [rand.Intn(n)] draws, which lies in [[0, n)], every index below
    [n] being the value of some draw, and the request goes to the
    server at that index; when the extension is not empty, is outside
    that set, and neither host nor path matches one of the
    static/media patterns, the index is 0 and the request goes to the
    first server. *)
Theorem selection_by_extension (vf : Vps.Filter) (pf : Php.Filter) (req : Request) (raw : Z) :
  Vps.Sites vf (Host req) = true ->
  Php.Sites pf (Host req) = true ->
  Vps.FetchServers vf <> [] ->
  Php.FetchServers pf <> [] ->
  (is_media_ext (Ext (URL_Path req)) = true ->
     (forall n, 0 < n ->
        pick req n raw = Intn raw n /\
        pick req n raw = Some (raw mod n) /\
        0 <= raw mod n < n /\
        (forall k, 0 <= k < n -> pick req n k = Some k)) /\
     Vps.served_at vf raw req (raw mod Z.of_nat (length (Vps.FetchServers vf))) /\
     Php.served_at pf raw req (raw mod Z.of_nat (length (Php.FetchServers pf))))
  /\
  (is_media_ext (Ext (URL_Path req)) = false ->
   Ext (URL_Path req) <> "" ->
   is_static req = false ->
     (forall n, pick req n raw = Some 0) /\
     Vps.served_at vf raw req 0 /\
     Php.served_at pf raw req 0).
Proof.
  intros Hv Hp Hnv Hnp.
  apply length_pos in Hnv. apply length_pos in Hnp. split.
  - intros Hm.
    assert (forall n, 0 < n -> pick req n raw = Some (raw mod n)) as E
      by (intros; rewrite pick_media, Intn_pos; auto).
    split; [|split].
    + intros n Hn. split; [now apply pick_media|]. split; [now apply E|].
      split; [apply Z.mod_pos_bound; lia|].
      intros k Hk. rewrite pick_media, Intn_pos by auto.
      now rewrite Z.mod_small.
    + apply vps_RoundTrip_forward; [assumption | apply Z.mod_pos_bound; lia | now apply E].
    + apply php_RoundTrip_forward; [assumption | apply Z.mod_pos_bound; lia | now apply E].
  - intros Hm He Hs. split; [|split].
    + intros n. now apply pick_other.
    + apply vps_RoundTrip_forward; [assumption | lia | now apply pick_other].
    + apply php_RoundTrip_forward; [assumption | lia | now apply pick_other].
Qed.

(** The example of the specification: /x/video.mp4 with three servers
    follows the draw, /page.html always goes to the first server. *)
Lemma selection_by_extension_witness :
  Vps.Sites Samples.three_vps (Host (Samples.get "/x/video.mp4")) = true /\
  Php.Sites Samples.three_php (Host (Samples.get "/x/video.mp4")) = true /\
  Vps.FetchServers Samples.three_vps <> [] /\
  Php.FetchServers Samples.three_php <> [] /\
  is_media_ext (Ext (URL_Path (Samples.get "/x/video.mp4"))) = true /\
  Vps.served_at Samples.three_vps 7 (Samples.get "/x/video.mp4") 1 /\
  (forall n, pick (Samples.get "/page.html") n 7 = Some 0) /\
  Php.served_at Samples.three_php 7 (Samples.get "/page.html") 0.
Proof.
  assert (Vps.FetchServers Samples.three_vps <> []) as Hv by discriminate.
  assert (Php.FetchServers Samples.three_php <> []) as Hp by discriminate.
  pose proof (selection_by_extension Samples.three_vps Samples.three_php
                (Samples.get "/x/video.mp4") 7 eq_refl eq_refl Hv Hp) as [Hmedia _].
  pose proof (selection_by_extension Samples.three_vps Samples.three_php
                (Samples.get "/page.html") 7 eq_refl eq_refl Hv Hp) as [_ Hpage].
  destruct (Hmedia eq_refl) as (_ & Sv & _).
  destruct Hpage as (P0 & _ & Sp); [reflexivity | discriminate | reflexivity |].
  split; [reflexivity|]. split; [reflexivity|]. split; [exact Hv|]. split; [exact Hp|].
  split; [reflexivity|]. split; [exact Sv|]. split; [exact P0 | exact Sp].
Defined.

(** C10: for a request whose host matches the site list, [RoundTrip]
    of the vps filter and of the php filter indexes the list of fetch
    servers, at 0 or at the value drawn below its length: with a
    non-empty list the index is in range and the request is forwarded
    to the server found there; with an empty list the draw or the
    access at 0 is out of range and the call panics. *)
Theorem fetch_servers_nonempty_precondition
        (vf : Vps.Filter) (pf : Php.Filter) (req : Request) (raw : Z) :
  Vps.Sites vf (Host req) = true ->
  Php.Sites pf (Host req) = true ->
  (Vps.FetchServers vf <> [] ->
     exists i, (i = 0 \/ i = raw mod Z.of_nat (length (Vps.FetchServers vf))) /\
               0 <= i < Z.of_nat (length (Vps.FetchServers vf)) /\
               Vps.served_at vf raw req i) /\
  (Php.FetchServers pf <> [] ->
     exists i, (i = 0 \/ i = raw mod Z.of_nat (length (Php.FetchServers pf))) /\
               0 <= i < Z.of_nat (length (Php.FetchServers pf)) /\
               Php.served_at pf raw req i) /\
  (Vps.FetchServers vf = [] -> exists msg, Vps.RoundTrip vf raw req = Panic msg) /\
  (Php.FetchServers pf = [] -> exists msg, Php.RoundTrip pf raw req = Panic msg) /\
  (Intn raw 0 = None /\ index (@nil Vps.FetchServer) 0 = None /\
   index (@nil Php.FetchServer) 0 = None /\
   (pick req 0 raw = None \/ pick req 0 raw = Some 0)).
Proof.
  intros Hv Hp. split; [|split; [|split; [|split]]].
  - intros Hne. apply length_pos in Hne.
    destruct (pick_some req _ raw Hne) as [i Hi]. exists i.
    pose proof (pick_in_range _ _ _ _ Hne Hi).
    split; [eauto using pick_choice|]. split; [assumption|].
    now apply vps_RoundTrip_forward.
  - intros Hne. apply length_pos in Hne.
    destruct (pick_some req _ raw Hne) as [i Hi]. exists i.
    pose proof (pick_in_range _ _ _ _ Hne Hi).
    split; [eauto using pick_choice|]. split; [assumption|].
    now apply php_RoundTrip_forward.
  - now apply vps_empty_panics.
  - now apply php_empty_panics.
  - repeat split; try reflexivity.
    destruct (pick_cases req 0 raw) as [E|E]; rewrite E; auto.
Qed.

Lemma fetch_servers_nonempty_precondition_witness :
  Vps.Sites (Samples.vps_filter []) (Host (Samples.get "/page.html")) = true /\
  Php.Sites (Samples.php_filter []) (Host (Samples.get "/page.html")) = true /\
  (exists msg, Vps.RoundTrip (Samples.vps_filter []) 7 (Samples.get "/page.html") = Panic msg) /\
  (exists msg, Php.RoundTrip (Samples.php_filter []) 7 (Samples.get "/page.html") = Panic msg).
Proof.
  pose proof (fetch_servers_nonempty_precondition (Samples.vps_filter []) (Samples.php_filter [])
                (Samples.get "/page.html") 7 eq_refl eq_refl) as (_ & _ & Pv & Pp & _).
  repeat split; [exact (Pv eq_refl) | exact (Pp eq_refl)].
Defined.

End FetchProps.

(** ** The dialer *)

Module DirectProps.
Import GoLib Direct.

Section WithCache.
Context {C : Type} `{Cache C}.

(** [init] makes no observable call and leaves the clock alone. *)
Lemma init_world (e : Env) (d : Dialer) (w : World C) :
  trace (snd (init e d w)) = trace w /\ now (snd (init e d w)) = now w.
Proof. unfold init. now destruct (once d). Qed.

Lemma add_interface_addrs_incl (e : Env) (s : gset string) x :
  x ∈ s -> x ∈ add_interface_addrs e s.
Proof.
  unfold add_interface_addrs. destruct (InterfaceAddrs e) as [addrs|]; [|easy].
  revert s. induction addrs as [|a addrs IH]; intros s Hs; cbn; [exact Hs|].
  apply IH. destruct (String.eqb _ _); set_solver.
Qed.

(** What [init] assigns stays in its copy: with the fields unset,
    the copy has the defaults, a cache and the loopback set. *)
Lemma init_copy_defaults (e : Env) (d : Dialer) (w : World C) :
  once d = false -> RetryTimes d = 0 -> RetryDelay d = 0 -> DNSCacheExpires d = 0 ->
  RetryTimes (fst (init e d w)) = 2 /\
  RetryDelay (fst (init e d w)) = 100 * Millisecond /\
  DNSCacheExpires (fst (init e d w)) = Hour /\
  dnsCache (fst (init e d w)) = Some (length (heap w)) /\
  exists s, loAddrs (fst (init e d w)) = Some s /\ "::1" ∈ s.
Proof.
  intros Ho Ht Hd Hx. unfold init. rewrite Ho, Ht, Hd, Hx. cbn.
  repeat (split; [reflexivity|]). eexists. split; [reflexivity|].
  apply add_interface_addrs_incl. set_solver.
Qed.

(** The loop makes as many connect attempts as [d.RetryTimes]
    admits and no more. *)
Lemma retry_zero (e : Env) (d : Dialer) network address i r (w : World C) :
  retry e d network address 0 i r w = (r, w).
Proof. reflexivity. Qed.

(** With a nil [dnsCache], a dial on a TCP network panics at
    [d.dnsCache.Get] before any resolution or connect. *)
Lemma Dial_nil_cache (e : Env) (d : Dialer) network address (w : World C) :
  is_tcp network = true ->
  dnsCache d = None ->
  exists msg,
    fst (Dial e d network address w) = Panic msg /\
    trace (snd (Dial e d network address w)) = trace w.
Proof.
  intros Ht Hn. unfold Dial.
  pose proof (init_world e d w) as [Htr _].
  destruct (init e d w) as [d' w0]. cbn in Htr.
  rewrite Ht, Hn. cbn. eauto.
Qed.

(** With [d.RetryTimes] at zero or below, a dial on another network
    returns nil, nil without a connect attempt. *)
Lemma Dial_no_attempt (e : Env) (d : Dialer) network address (w : World C) :
  is_tcp network = false ->
  RetryTimes d <= 0 ->
  fst (Dial e d network address w) = Return None None /\
  trace (snd (Dial e d network address w)) = trace w.
Proof.
  intros Ht Hn. unfold Dial.
  pose proof (init_world e d w) as [Htr _].
  destruct (init e d w) as [d' w0]. cbn in Htr.
  rewrite Ht. unfold dial_loop.
  replace (Z.to_nat (RetryTimes d)) with 0%nat by lia.
  cbn. auto.
Qed.

Lemma attempts_log_connect network address (w : World C) :
  attempts (log (EvConnect network address) w) = S (attempts w).
Proof.
  unfold attempts, connects, log. cbn. rewrite filter_app, length_app.
  rewrite filter_cons_True by reflexivity. cbn. lia.
Qed.

Lemma attempts_Sleep delay (w : World C) : attempts (Sleep delay w) = attempts w.
Proof.
  unfold attempts, connects, Sleep. cbn. rewrite filter_app, length_app.
  rewrite filter_cons_False by discriminate. cbn. lia.
Qed.

(** With [d.RetryTimes] itself set to [n], a dial that fails [k < n]
    times and then connects makes [k + 1] attempts with [k] sleeps
    of [d.RetryDelay] between them and returns the connection. *)
Lemma retry_until_success (e : Env) (d : Dialer) network address conn :
  forall k n i r (w : World C),
    (k < n)%nat ->
    i + Z.of_nat n = RetryTimes d ->
    (forall j, (j < k)%nat ->
       is_nil_err (snd (NetDial e (attempts w + j) network address)) = false) ->
    NetDial e (attempts w + k) network address = (Some conn, None) ->
    exists w',
      retry e d network address n i r w = ((Some conn, None), w') /\
      trace w' = (trace w ++ attempts_trace network address (RetryDelay d) k)%list.
Proof.
  induction k as [|k IH]; intros n i r w Hk Hi Hfail Hok;
    destruct n as [|n]; try lia; cbn [retry].
  - rewrite Nat.add_0_r in Hok. rewrite Hok. cbn. eauto.
  - pose proof (Hfail 0%nat ltac:(lia)) as H0. rewrite Nat.add_0_r in H0.
    rewrite H0. cbn [orb].
    destruct (Z.eqb_spec i (RetryTimes d - 1)) as [E|_]; [lia|].
    destruct (IH n (i + 1) (NetDial e (attempts w) network address)
                 (Sleep (RetryDelay d) (log (EvConnect network address) w)))
      as (w' & Hr & Htr).
    + lia.
    + lia.
    + intros j Hj. rewrite attempts_Sleep, attempts_log_connect.
      replace (S (attempts w) + j)%nat with (attempts w + S j)%nat by lia.
      apply Hfail. lia.
    + rewrite attempts_Sleep, attempts_log_connect.
      replace (S (attempts w) + k)%nat with (attempts w + S k)%nat by lia.
      exact Hok.
    + exists w'. split; [exact Hr|]. rewrite Htr. cbn.
      now rewrite <- !app_assoc.
Qed.

(** With [d.RetryTimes] itself set to [n], a dial whose [n] attempts
    all fail makes them with [n - 1] sleeps between them and returns
    the result of the last. *)
Lemma retry_exhausted (e : Env) (d : Dialer) network address :
  forall n i r (w : World C),
    i + Z.of_nat (S n) = RetryTimes d ->
    (forall j, (j <= n)%nat ->
       is_nil_err (snd (NetDial e (attempts w + j) network address)) = false) ->
    exists w',
      retry e d network address (S n) i r w
        = (NetDial e (attempts w + n) network address, w') /\
      trace w' = (trace w ++ attempts_trace network address (RetryDelay d) n)%list.
Proof.
  induction n as [|n IH]; intros i r w Hi Hfail; cbn [retry].
  - pose proof (Hfail 0%nat ltac:(lia)) as H0. rewrite Nat.add_0_r in *.
    rewrite H0. cbn [orb].
    destruct (Z.eqb_spec i (RetryTimes d - 1)) as [_|E]; [|lia].
    cbn. eauto.
  - pose proof (Hfail 0%nat ltac:(lia)) as H0. rewrite Nat.add_0_r in H0.
    rewrite H0. cbn [orb].
    destruct (Z.eqb_spec i (RetryTimes d - 1)) as [E|_]; [lia|].
    destruct (IH (i + 1) (NetDial e (attempts w) network address)
                 (Sleep (RetryDelay d) (log (EvConnect network address) w)))
      as (w' & Hr & Htr).
    + lia.
    + intros j Hj. rewrite attempts_Sleep, attempts_log_connect.
      replace (S (attempts w) + j)%nat with (attempts w + S j)%nat by lia.
      apply Hfail. lia.
    + exists w'. rewrite attempts_Sleep, attempts_log_connect in Hr.
      replace (S (attempts w) + n)%nat with (attempts w + S n)%nat in Hr by lia.
      split; [exact Hr|]. rewrite Htr. cbn.
      now rewrite <- !app_assoc.
Qed.

(** With the cache and the loopback set in the struct itself, a miss
    whose first resolved address is in the set is rejected without
    a connect attempt. *)
Lemma Dial_rejects_loopback (e : Env) (d : Dialer) network address (w : World C)
      l c c1 host port ip ips s :
  is_tcp network = true ->
  dnsCache d = Some l ->
  heap w !! l = Some c ->
  cache_Get c (now w) address = (None, c1) ->
  SplitHostPort e address = Some (host, port) ->
  LookupIP e host = Some (ip :: ips) ->
  loAddrs d = Some s ->
  ip ∈ s ->
  exists msg,
    fst (Dial e d network address w) = Return None (Some (InvalidAddrError msg)) /\
    connects (trace (snd (Dial e d network address w))) = connects (trace w).
Proof.
  intros Ht Hc Hh Hg Hsp Hlk Hlo Hin. unfold Dial.
  assert (heap (snd (init e d w)) !! l = Some c /\
          now (snd (init e d w)) = now w /\
          trace (snd (init e d w)) = trace w) as (Hh0 & Hn0 & Ht0).
  { unfold init. destruct (once d); cbn; [auto|].
    split; [|auto]. now apply lookup_app_l_Some. }
  destruct (init e d w) as [d' w0]. cbn in Hh0, Hn0, Ht0.
  rewrite Ht, Hc, Hh0, Hn0, Hg. unfold resolve. rewrite Hsp, Hlk, Hlo.
  rewrite bool_decide_eq_true_2 by exact Hin. cbn.
  eexists. split; [reflexivity|].
  unfold connects. rewrite Ht0, filter_app.
  rewrite filter_cons_False by discriminate. now rewrite app_nil_r.
Qed.

End WithCache.

(** The model at work on a dialer whose own fields are set: localhost
    is rejected without a connect; example.com is resolved once,
    connected to at the second attempt after one sleep, and the
    resolution is then in the cache. *)
Example Dial_populated_localhost :
  Dial Samples.env Samples.populated "tcp" "localhost:80" Samples.world1
  = (Return None (Some (InvalidAddrError "Invaid DNS Record: localhost(::1)")),
     {| now := 0; heap := [∅]; trace := [EvLookupIP "localhost"] |}).
Proof. reflexivity. Qed.

Example Dial_populated_example :
  fst (Dial Samples.env Samples.populated "tcp" "example.com:80" Samples.world1)
  = Return (Some {| conn_network := "tcp"; conn_address := "93.184.216.34:80" |}) None /\
  trace (snd (Dial Samples.env Samples.populated "tcp" "example.com:80" Samples.world1))
  = [EvLookupIP "example.com"; EvConnect "tcp" "93.184.216.34:80";
     EvSleep (100 * Millisecond); EvConnect "tcp" "93.184.216.34:80"] /\
  heap (snd (Dial Samples.env Samples.populated "tcp" "example.com:80" Samples.world1))
  = [ {[ "example.com:80" := ("93.184.216.34:80", Hour) ]} ].
Proof. repeat split; vm_compute; reflexivity. Qed.

(** The defaults of [init], the cache and the loopback set never
    reach the struct [Dial] reads: whatever the exported fields, a
    dial on a TCP network panics before resolving or connecting. *)
Lemma Dial_literal_tcp (e : Env) rt rd ex sz network address (w : World ExpiryMap) :
  is_tcp network = true ->
  exists msg,
    fst (Dial e (literal rt rd ex sz) network address w) = Panic msg /\
    trace (snd (Dial e (literal rt rd ex sz) network address w)) = trace w.
Proof. intros Ht. now apply Dial_nil_cache. Qed.

(** C1: the set of loopback and interface addresses that [init]
    computes is assigned to the copy of the struct that [init]
    receives, and so is the cache.  On the zero [Dialer], a dial of
    localhost:80 on "tcp", where localhost resolves to ::1 and ::1 is
    in the set [init] computed, does not return the invalid-address
    error: it panics at the call of [Get] on the nil cache. *)
Theorem Dial_loopback_zero_Dialer :
  SplitHostPort Samples.env "localhost:80" = Some ("localhost", "80") /\
  LookupIP Samples.env "localhost" = Some ["::1"] /\
  (exists s, loAddrs (fst (init Samples.env zero_Dialer Samples.world0)) = Some s /\ "::1" ∈ s) /\
  loAddrs zero_Dialer = None /\
  dnsCache zero_Dialer = None /\
  fst (Dial Samples.env zero_Dialer "tcp" "localhost:80" Samples.world0)
    = Panic "invalid memory address or nil pointer dereference" /\
  (forall msg,
      fst (Dial Samples.env zero_Dialer "tcp" "localhost:80" Samples.world0)
        <> Return None (Some (InvalidAddrError msg))).
Proof.
  split; [reflexivity|]. split; [reflexivity|].
  split; [|split; [reflexivity|split; [reflexivity|]]].
  - destruct (init_copy_defaults Samples.env zero_Dialer Samples.world0)
      as (_ & _ & _ & _ & Hs); auto.
  - assert (fst (Dial Samples.env zero_Dialer "tcp" "localhost:80" Samples.world0)
            = Panic "invalid memory address or nil pointer dereference") as E
      by reflexivity.
    split; [exact E|]. intros msg. rewrite E. discriminate.
Qed.

(** C3: the defaults of 2 attempts and 100 ms are assigned to the
    copy of the struct that [init] receives.  On the zero [Dialer],
    [Dial] reads a [RetryTimes] of 0: on "udp" it makes no connect
    attempt and returns nil, nil, although the first attempt would
    fail and the second succeed. *)
Theorem Dial_zero_Dialer_no_attempt :
  RetryTimes (fst (init Samples.env zero_Dialer Samples.world0)) = DefaultRetryTimes /\
  RetryDelay (fst (init Samples.env zero_Dialer Samples.world0)) = DefaultRetryDelay /\
  RetryTimes zero_Dialer = 0 /\
  fst (Dial Samples.env zero_Dialer "udp" "example.com:53" Samples.world0) = Return None None /\
  connects (trace (snd (Dial Samples.env zero_Dialer "udp" "example.com:53" Samples.world0))) = [] /\
  sleeps (trace (snd (Dial Samples.env zero_Dialer "udp" "example.com:53" Samples.world0))) = [].
Proof. repeat split; reflexivity. Qed.

(** C4: the cache that [init] creates is assigned to the copy of the
    struct that [init] receives.  Two dials of example.com:80 on
    "tcp", one second apart, on a [Dialer] whose TTL is set to one
    hour: each panics at the call of [Get] on the nil cache, no
    resolution is made, and no cache of the heap holds the address
    afterwards. *)
Theorem Dial_twice_no_cache :
  DNSCacheExpires Samples.hour_Dialer = Hour /\
  fst Samples.first_dial = Panic "invalid memory address or nil pointer dereference" /\
  fst Samples.second_dial = Panic "invalid memory address or nil pointer dereference" /\
  lookups (trace (snd Samples.second_dial)) = [] /\
  Forall (fun c : ExpiryMap => c !! "example.com:80" = None) (heap (snd Samples.second_dial)).
Proof.
  split; [reflexivity|]. split; [reflexivity|]. split; [reflexivity|]. split; [reflexivity|].
  repeat constructor.
Qed.

End DirectProps.

(** ** The listener *)

Module ListenerProps.
Import GoLib Httpproxy.

(** *** The backoff schedule *)

Lemma backoff_0 : backoff 0 = 5 * Millisecond.
Proof. reflexivity. Qed.

Lemma backoff_pos k : 0 < backoff k.
Proof.
  unfold backoff. apply Z.min_glb_lt; [|reflexivity].
  assert (0 < 2 ^ Z.of_nat k) by (apply Z.pow_pos_nonneg; lia).
  unfold Millisecond. lia.
Qed.

Lemma backoff_S k : backoff (S k) = Z.min (2 * backoff k) (1 * Second).
Proof.
  unfold backoff. rewrite Nat2Z.inj_succ, Z.pow_succ_r by lia.
  unfold Second, Millisecond. lia.
Qed.

Lemma backoff_le k : backoff k <= 1 * Second.
Proof. unfold backoff. apply Z.le_min_r. Qed.

(** The code's update of [tempDelay] follows the schedule. *)
Lemma next_delay_after k : next_delay (delay_after k) = backoff k.
Proof.
  unfold next_delay. destruct k as [|k]; cbn [delay_after].
  - reflexivity.
  - pose proof (backoff_pos k) as Hp.
    destruct (Z.eqb_spec (backoff k) 0); [lia|].
    rewrite backoff_S.
    destruct (Z.ltb_spec (1 * Second) (backoff k * 2)); lia.
Qed.

(** *** The worker *)

Lemma push_nil l : push l [] = l.
Proof.
  destruct l as [n [b c] k st o g]. unfold push, set_lane. cbn.
  now rewrite app_nil_r.
Qed.

Lemma push_push l rs rs' : push (push l rs) rs' = push l (rs ++ rs').
Proof. unfold push, set_lane. cbn. now rewrite app_assoc. Qed.

Lemma send_open r l :
  closed (lane l) = false ->
  (length (buf (lane l)) < backlog)%nat ->
  send r l = Done (push l [r]) tt.
Proof.
  intros Hc Hl. unfold send, push. rewrite Hc.
  apply Nat.ltb_lt in Hl. now rewrite Hl.
Qed.

Lemma send_closed r l : closed (lane l) = true -> exists msg, send r l = Crash msg.
Proof. intros Hc. unfold send. rewrite Hc. eauto. Qed.

Lemma nonpermanent_cases r :
  is_permanent_racer r = false ->
  (is_temp_racer r = true /\ exists e, err r = Some e /\ is_temporary e = true) \/
  (is_temp_racer r = false /\ err r = None).
Proof.
  unfold is_permanent_racer, is_temp_racer. destruct (err r) as [e|].
  - intros H. apply negb_false_iff in H. left. eauto.
  - intros _. now right.
Qed.

(** While no permanent error arrives and the queue is open and has
    room, the worker publishes every result and sleeps as scheduled. *)
Lemma worker_nonpermanent pre :
  forall rest k l,
    closed (lane l) = false ->
    (length (buf (lane l)) + length pre <= backlog)%nat ->
    Forall (fun r => is_permanent_racer r = false) pre ->
    worker (pre ++ rest) (delay_after k) l =
    let '(e, l2, evs) := worker rest (delay_after (k + count_temps pre)) (push l pre) in
    (e, l2, (schedule pre k ++ evs)%list).
Proof.
  induction pre as [|r pre IH]; intros rest k l Hc Hl Hf.
  - cbn [app schedule]. unfold count_temps. cbn [filter length].
    rewrite Nat.add_0_r, push_nil.
    now destruct (worker rest (delay_after k) l) as [[? ?] ?].
  - inversion Hf as [|? ? Hr Hf']; subst.
    cbn [length] in Hl.
    assert (closed (lane (push l [r])) = false) as Hc' by exact Hc.
    assert (length (buf (lane (push l [r]))) + length pre <= backlog)%nat as Hl'
      by (unfold push; cbn; rewrite length_app; cbn; lia).
    cbn [app worker]. unfold worker_iter.
    rewrite send_open by (assumption || lia).
    destruct (nonpermanent_cases r Hr) as [(Ht & e & He & Hte) | (Ht & He)];
      rewrite He; [rewrite Hte|].
    + rewrite next_delay_after.
      change (backoff k) with (delay_after (S k)) at 1.
      rewrite (IH rest (S k) _ Hc' Hl' Hf').
      rewrite push_push. cbn [schedule]. rewrite Ht.
      unfold count_temps. rewrite filter_cons_True by exact Ht. cbn [length].
      rewrite Nat.add_succ_r.
      now destruct (worker rest _ _) as [[? ?] ?].
    + rewrite (IH rest k _ Hc' Hl' Hf').
      rewrite push_push. cbn [schedule]. rewrite Ht.
      unfold count_temps. rewrite filter_cons_False by (rewrite Ht; discriminate).
      now destruct (worker rest _ _) as [[? ?] ?].
Qed.

(** The acceptance worker, while the queue is open and has room.
    For accept results [pre] none of which is a permanent error, it
    publishes each result and after each temporary error sleeps
    before the next accept; the delay is 5 ms after the first
    temporary error, twice the previous delay after each further one,
    and never more than 1 s.  When a non-temporary error [e] follows,
    the worker publishes it and terminates: whatever [post] the
    underlying listener would still deliver, nothing is published
    after [e]. *)
Theorem worker_backoff_then_terminates (pre post : list racer) (e : racer) (l : listener) :
  closed (lane l) = false ->
  (length (buf (lane l)) + length pre < backlog)%nat ->
  Forall (fun r => is_permanent_racer r = false) pre ->
  is_permanent_racer e = true ->
  worker pre 0 l = (InAccept (delay_after (count_temps pre)), push l pre, schedule pre 0) /\
  worker (pre ++ e :: post) 0 l =
    (Terminated, push l (pre ++ [e]), (schedule pre 0 ++ [Published e])%list) /\
  backoff 0 = 5 * Millisecond /\
  (forall k, backoff (S k) = Z.min (2 * backoff k) (1 * Second)) /\
  (forall k, backoff k <= 1 * Second).
Proof.
  intros Hc Hl Hf He.
  split; [|split; [|split; [|split]]];
    [| | exact backoff_0 | exact backoff_S | exact backoff_le].
  - pose proof (worker_nonpermanent pre [] 0%nat l Hc ltac:(lia) Hf) as W.
    rewrite app_nil_r in W. change (delay_after 0) with 0 in W.
    rewrite W. cbn [worker].
    now rewrite app_nil_r.
  - pose proof (worker_nonpermanent pre (e :: post) 0%nat l Hc ltac:(lia) Hf) as W.
    change (delay_after 0) with 0 in W. rewrite W.
    cbn [worker]. unfold worker_iter.
    rewrite send_open;
      [| exact Hc | unfold push; cbn; rewrite length_app; lia].
    unfold is_permanent_racer in He. destruct (err e) as [x|]; [|discriminate].
    apply negb_true_iff in He. rewrite He. now rewrite push_push.
Qed.

(** Two temporary errors around a connection, then a permanent error:
    sleeps of 5 ms and 10 ms, and the connection that would come
    after the permanent error is never published. *)
Lemma worker_backoff_then_terminates_witness :
  closed (lane Samples.fresh_listener) = false /\
  (length (buf (lane Samples.fresh_listener)) +
   length [Samples.failed Samples.temp_error; Samples.accepted 1;
           Samples.failed Samples.temp_error] < backlog)%nat /\
  Forall (fun r => is_permanent_racer r = false)
         [Samples.failed Samples.temp_error; Samples.accepted 1;
          Samples.failed Samples.temp_error] /\
  is_permanent_racer (Samples.failed Samples.perm_error) = true /\
  worker ([Samples.failed Samples.temp_error; Samples.accepted 1;
           Samples.failed Samples.temp_error]
            ++ Samples.failed Samples.perm_error :: [Samples.accepted 2])
         0 Samples.fresh_listener =
    (Terminated,
     push Samples.fresh_listener
          [Samples.failed Samples.temp_error; Samples.accepted 1;
           Samples.failed Samples.temp_error; Samples.failed Samples.perm_error],
     [Published (Samples.failed Samples.temp_error); Slept 5000000;
      Published (Samples.accepted 1);
      Published (Samples.failed Samples.temp_error); Slept 10000000;
      Published (Samples.failed Samples.perm_error)]).
Proof.
  assert (closed (lane Samples.fresh_listener) = false) as H1 by reflexivity.
  assert (length (buf (lane Samples.fresh_listener)) +
          length [Samples.failed Samples.temp_error; Samples.accepted 1;
                  Samples.failed Samples.temp_error] < backlog)%nat as H2
    by (apply Nat.ltb_lt; vm_compute; reflexivity).
  assert (Forall (fun r => is_permanent_racer r = false)
            [Samples.failed Samples.temp_error; Samples.accepted 1;
             Samples.failed Samples.temp_error]) as H3
    by (repeat constructor).
  assert (is_permanent_racer (Samples.failed Samples.perm_error) = true) as H4
    by reflexivity.
  split; [exact H1|]. split; [exact H2|]. split; [exact H3|]. split; [exact H4|].
  exact (proj1 (proj2 (worker_backoff_then_terminates _ [Samples.accepted 2] _ _ H1 H2 H3 H4))).
Defined.

(** Once the queue is closed, the next send of the worker panics.  *)
Lemma worker_closed_panics r script d l :
  closed (lane l) = true ->
  exists msg, worker (r :: script) d l = (Panicked msg, l, []).
Proof.
  intros Hc. cbn [worker]. unfold worker_iter.
  destruct (send_closed r l Hc) as [msg ->]. eauto.
Qed.

(** C8: [Close] closes the queue and then the underlying listener,
    which makes the pending accept of the worker fail with a
    non-temporary error.  The worker sends that error into the queue
    without looking at the stopped flag, as [Add] does: on a fresh
    listener closed while the worker waits in accept, the worker
    does not publish the error and terminate, it panics on the send,
    whereas [Add] returns the closed-listener error. *)
Theorem worker_after_Close_panics :
  Accept Samples.fresh_listener = Blocked /\
  is_permanent_racer (Samples.failed Samples.perm_error) = true /\
  exists l1,
    Close Samples.waiting_listener = Done l1 None /\
    closed (lane l1) = true /\
    worker [Samples.failed Samples.perm_error] 0 l1
      = (Panicked "send on closed channel", l1, []) /\
    buf (lane l1) = [] /\
    Add (Samples.tcp_conn 1) l1 = Done l1 (Some closed_error).
Proof.
  split; [reflexivity|]. split; [reflexivity|]. eexists. split; [reflexivity|].
  repeat split; reflexivity.
Qed.

(** *** Close and Add *)

Ltac unfold_calls :=
  unfold exec, Accept, once_Do, recv, Close, Add, send, set_lane in *.

(** The stopped flag is never reset. *)
Lemma exec_stopped op l l1 :
  exec op l = Some l1 -> stopped l = true -> stopped l1 = true.
Proof.
  intros He Hs. destruct op; unfold_calls; cbn [stopped lane buf closed] in *;
    repeat case_match; simplify_eq; cbn; congruence.
Qed.

(** The queue is closed exactly when the listener is stopped. *)
Lemma exec_closed_iff_stopped op l l1 :
  exec op l = Some l1 ->
  closed (lane l) = stopped l -> closed (lane l1) = stopped l1.
Proof.
  intros He Hs. destruct op; unfold_calls; cbn [stopped lane buf closed] in *;
    repeat case_match; simplify_eq; cbn in *; congruence.
Qed.

Lemma steps_stopped l ops l' :
  steps l ops l' -> stopped l = true -> stopped l' = true.
Proof. induction 1; eauto using exec_stopped. Qed.

Lemma steps_closed_iff_stopped l ops l' :
  steps l ops l' -> closed (lane l) = stopped l -> closed (lane l') = stopped l'.
Proof. induction 1; eauto using exec_closed_iff_stopped. Qed.

Lemma ListenTCP_open bound opts l :
  ListenTCP bound opts = inr l -> closed (lane l) = false /\ stopped l = false.
Proof.
  unfold ListenTCP. destruct bound; [discriminate|]. intros [= <-]. now split.
Qed.

Lemma reachable_closed_iff_stopped l : reachable l -> closed (lane l) = stopped l.
Proof.
  intros (bound & opts & l0 & ops & Hl & Hs).
  apply (steps_closed_iff_stopped _ _ _ Hs).
  destruct (ListenTCP_open _ _ _ Hl). congruence.
Qed.

Lemma Close_stopped l : stopped l = true -> Close l = Done l None.
Proof. intros Hs. unfold Close. now rewrite Hs. Qed.

Lemma Add_stopped c l : stopped l = true -> Add c l = Done l (Some closed_error).
Proof. intros Hs. unfold Add. now rewrite Hs. Qed.

(** C9: on a listener obtained from [ListenTCP], the first [Close]
    marks it stopped, closes the queue and closes the underlying
    listener, returning what the latter returns; from then on,
    whatever else happens to the listener, every [Close] returns nil
    and changes nothing, and every [Add] returns the closed-listener
    error and leaves the queue as it is. *)
Theorem Close_idempotent (l : listener) :
  reachable l ->
  stopped l = false ->
  exists l1,
    Close l = Done l1 (ln_close_err (ln l)) /\
    stopped l1 = true /\
    closed (lane l1) = true /\
    ln_closed (ln l1) = true /\
    buf (lane l1) = buf (lane l) /\
    forall ops l2,
      steps l1 ops l2 ->
      Close l2 = Done l2 None /\
      forall c, Add c l2 = Done l2 (Some closed_error).
Proof.
  intros Hr Hs. pose proof (reachable_closed_iff_stopped l Hr) as Hc.
  rewrite Hs in Hc. unfold Close. rewrite Hs, Hc.
  eexists. split; [reflexivity|]. cbn.
  repeat (split; [reflexivity|]).
  intros ops l2 Hsteps.
  assert (stopped l2 = true) as H2 by (eapply steps_stopped; [exact Hsteps | reflexivity]).
  split; [now apply Close_stopped | intros c; now apply Add_stopped].
Qed.

Lemma Close_idempotent_witness :
  reachable Samples.fresh_listener /\
  stopped Samples.fresh_listener = false /\
  exists l1,
    Close Samples.fresh_listener = Done l1 None /\
    Close l1 = Done l1 None /\
    Add (Samples.tcp_conn 1) l1 = Done l1 (Some closed_error).
Proof.
  assert (reachable Samples.fresh_listener) as Hr.
  { exists (inr Samples.raw_listener), None, Samples.fresh_listener, [].
    split; [reflexivity | constructor]. }
  split; [exact Hr|]. split; [reflexivity|].
  destruct (Close_idempotent Samples.fresh_listener Hr eq_refl)
    as (l1 & Hclose & _ & _ & _ & _ & Hlater).
  exists l1. split; [exact Hclose|].
  destruct (Hlater [] l1 (steps_nil l1)) as [Hc Ha].
  split; [exact Hc | exact (Ha _)].
Defined.

End ListenerProps.

(** ** The blocklist updater *)

Module AutoproxyProps.
Import GoLib Autoproxy.

Section WithLibraries.
Variable time_Parse : string -> string -> option Time.
Variable base64_decode : string -> option string.
Variable GeneratePac : AutoProxy2Pac -> Request -> string.

Local Abbreviation stale := (stale time_Parse).
Local Abbreviation update := (update base64_decode).
Local Abbreviation updater_pass := (updater_pass time_Parse base64_decode).
Local Abbreviation updater := (updater time_Parse base64_decode).
Local Abbreviation read_all := (read_all base64_decode).

Ltac list_mem :=
  repeat (rewrite ?elem_of_cons, ?elem_of_nil in * );
  try solve [intuition (try discriminate; eauto)].

(** No pass assigns to a field of the filter other than through
    the store. *)
Lemma update_fields c f :
  DateFormat (fst (update c f)) = DateFormat f /\
  SiteList (fst (update c f)) = SiteList f /\
  GFWList_ (fst (update c f)) = GFWList_ f /\
  AutoProxy2Pac_ (fst (update c f)) = AutoProxy2Pac_ f.
Proof. unfold update, set_Store. repeat case_match; cbn; auto. Qed.

Lemma updater_pass_fields tr c f :
  DateFormat (fst (updater_pass tr c f)) = DateFormat f /\
  SiteList (fst (updater_pass tr c f)) = SiteList f /\
  GFWList_ (fst (updater_pass tr c f)) = GFWList_ f /\
  AutoProxy2Pac_ (fst (updater_pass tr c f)) = AutoProxy2Pac_ f.
Proof.
  pose proof (update_fields c f) as U.
  unfold updater_pass. destruct tr.
  - destruct (update c f); exact U.
  - destruct (stale c f) as [evs|[|]]; cbn; auto.
    destruct (update c f); exact U.
Qed.

Lemma updater_generator inputs :
  forall f, AutoProxy2Pac_ (fst (updater inputs f)) = AutoProxy2Pac_ f.
Proof.
  induction inputs as [|[tr c] rest IH]; intros f; cbn; [reflexivity|].
  pose proof (updater_pass_fields tr c f) as (_ & _ & _ & Hp).
  destruct (updater_pass tr c f) as [f1 evs]. cbn in Hp.
  specialize (IH f1). destruct (updater rest f1) as [f2 evs']. cbn in *.
  congruence.
Qed.

(** What [update] leaves in the store, by the way it ends. *)
Lemma update_store c f :
  let g := GFWList_ f in
  let '(f1, evs) := update c f in
  (InfoUpdateOK ∈ evs ->
     exists body data,
       round_trip c = Some body /\ read_all c g body = Some data /\
       Store f1 = <[Filename g := {| LastModified := put_stamp c; Body := data |}]>
                    (delete (Filename g) (Store f))) /\
  (WarnPut ∈ evs -> put_fails c = true /\ Store f1 = delete (Filename g) (Store f)) /\
  (InfoUpdateOK ∉ evs -> WarnPut ∉ evs -> f1 = f).
Proof.
  cbv zeta. unfold update, set_Store.
  repeat case_match; simplify_eq; cbn; list_mem.
Qed.

Lemma update_put_fails c f :
  WarnPut ∈ snd (update c f) ->
  put_fails c = true /\
  fst (update c f) = set_Store f (delete (Filename (GFWList_ f)) (Store f)).
Proof.
  unfold update. repeat case_match; simplify_eq; cbn; list_mem.
Qed.

(** Every way in which [update] gives up before the delete leaves the
    filter and its store untouched. *)
Lemma update_aborts c f :
  (new_request_fails c = true -> fst (update c f) = f) /\
  (round_trip c = None -> fst (update c f) = f) /\
  ((forall body, round_trip c = Some body -> read_all c (GFWList_ f) body = None) ->
   fst (update c f) = f) /\
  (delete_fails c = true -> fst (update c f) = f).
Proof.
  unfold update. repeat split; intros Hx;
    repeat case_match; simplify_eq; cbn; try reflexivity;
    try (match goal with
         | E : read_all c _ ?b = Some _ |- _ =>
             first [ rewrite (Hx b eq_refl) in E | rewrite (Hx b ltac:(assumption)) in E ];
             discriminate
         end).
Qed.

Lemma stale_head_first c f evs :
  stale c f = inl evs -> exists rest, evs = HeadObject (Filename (GFWList_ f)) :: rest.
Proof. unfold stale. repeat case_match; intros [= <-]; eauto. Qed.

Lemma stale_skip_no_fetch c f evs url :
  stale c f = inl evs -> RoundTrip_ url ∉ evs.
Proof. unfold stale. repeat case_match; intros [= <-]; list_mem. Qed.

Lemma update_fetches c f :
  new_request_fails c = false -> RoundTrip_ (URL (GFWList_ f)) ∈ snd (update c f).
Proof.
  intros Hn. unfold update. rewrite Hn.
  repeat case_match; cbn; list_mem.
Qed.

(** C2, as the code has it: a pass of the updater, and so any number
    of passes, leaves the generator, the site list and the PAC
    responses of the filter as they were; a pass that ends with the
    update reported as done has fetched the remote content, decoded it
    when the encoding is base64, and left it as the stored copy. *)
Theorem refresh_replaces_stored_copy_only
        (tr : Trigger) (c : Cycle) (f : Filter) (inputs : list (Trigger * Cycle)) :
  AutoProxy2Pac_ (fst (updater_pass tr c f)) = AutoProxy2Pac_ f /\
  SiteList (fst (updater_pass tr c f)) = SiteList f /\
  AutoProxy2Pac_ (fst (updater inputs f)) = AutoProxy2Pac_ f /\
  (forall req, snd (RoundTrip GeneratePac (fst (updater inputs f)) req)
               = snd (RoundTrip GeneratePac f req)) /\
  (InfoUpdateOK ∈ snd (updater_pass tr c f) ->
   exists body data,
     round_trip c = Some body /\
     read_all c (GFWList_ f) body = Some data /\
     Store (fst (updater_pass tr c f)) !! Filename (GFWList_ f)
       = Some {| LastModified := put_stamp c; Body := data |}).
Proof.
  pose proof (updater_pass_fields tr c f) as (_ & Hs & _ & Hp).
  pose proof (updater_generator inputs f) as Hg.
  split; [exact Hp|]. split; [exact Hs|]. split; [exact Hg|]. split.
  - intros req. unfold RoundTrip. now rewrite Hg.
  - pose proof (update_store c f) as U. cbv zeta in U.
    unfold updater_pass. destruct tr.
    + destruct (update c f) as [f1 evs]. cbn. intros Hin.
      destruct U as (U & _). destruct U as (body & data & Hb & Hd & Hst); [list_mem|].
      exists body, data. rewrite Hst. now rewrite lookup_insert_eq.
    + destruct (stale c f) as [evs0|[|]] eqn:Est; cbn.
      * intros Hin. exfalso. revert Est Hin. unfold stale.
        repeat case_match; intros [= <-]; list_mem.
      * destruct (update c f) as [f1 evs]. cbn. intros Hin.
        destruct U as (U & _). destruct U as (body & data & Hb & Hd & Hst); [list_mem|].
        exists body, data. rewrite Hst. now rewrite lookup_insert_eq.
      * list_mem.
Qed.

(** C5, as the code has it: a pass in which the lookup of the stored
    copy's metadata, the building of the request, the remote fetch, the
    read or decoding of the body, or the delete fails leaves the filter
    and the stored copy untouched; a pass in which the put fails has
    already deleted the stored copy and leaves the store without it;
    in every case the loop goes on with the next trigger. *)
Theorem failed_pass_keeps_or_deletes_copy
        (tr : Trigger) (c : Cycle) (f : Filter) (rest : list (Trigger * Cycle)) :
  (tr = Tick -> head_fails c = true -> fst (updater_pass tr c f) = f) /\
  (new_request_fails c = true -> fst (updater_pass tr c f) = f) /\
  (round_trip c = None -> fst (updater_pass tr c f) = f) /\
  ((forall body, round_trip c = Some body -> read_all c (GFWList_ f) body = None) ->
   fst (updater_pass tr c f) = f) /\
  (delete_fails c = true -> fst (updater_pass tr c f) = f) /\
  (WarnPut ∈ snd (updater_pass tr c f) ->
   put_fails c = true /\
   Store (fst (updater_pass tr c f)) = delete (Filename (GFWList_ f)) (Store f) /\
   Store (fst (updater_pass tr c f)) !! Filename (GFWList_ f) = None) /\
  updater ((tr, c) :: rest) f =
    (fst (updater rest (fst (updater_pass tr c f))),
     (snd (updater_pass tr c f) ++ snd (updater rest (fst (updater_pass tr c f))))%list).
Proof.
  pose proof (update_aborts c f) as (A1 & A2 & A3 & A4).
  assert (forall P : Prop, (P -> fst (update c f) = f) -> P -> fst (updater_pass tr c f) = f) as K.
  { intros P HP HPx. unfold updater_pass. destruct tr.
    - specialize (HP HPx). destruct (update c f); exact HP.
    - destruct (stale c f) as [evs0|[|]]; cbn; [reflexivity| |reflexivity].
      specialize (HP HPx). destruct (update c f); exact HP. }
  split; [|split; [|split; [|split; [|split; [|split]]]]]; eauto.
  - intros -> Hh. unfold updater_pass, stale. now rewrite Hh.
  - intros Hin.
    assert (WarnPut ∈ snd (update c f) /\ fst (updater_pass tr c f) = fst (update c f)) as [Hu Hf].
    { revert Hin. unfold updater_pass. destruct tr.
      - destruct (update c f) as [f1 evs]. cbn. list_mem.
      - destruct (stale c f) as [evs0|[|]] eqn:Est; cbn.
        + intros Hin. exfalso. revert Est Hin. unfold stale.
          repeat case_match; intros [= <-]; list_mem.
        + destruct (update c f) as [f1 evs]. cbn. list_mem.
        + list_mem. }
    destruct (update_put_fails c f Hu) as [Hp Hst].
    rewrite Hf, Hst. cbn. split; [exact Hp|]. split; [reflexivity|].
    apply lookup_delete_eq.
  - cbn [Autoproxy.updater].
    destruct (updater_pass tr c f) as [f1 evs]. cbn.
    now destruct (Autoproxy.updater time_Parse base64_decode rest f1).
Qed.

(** C6: on a timer tick the pass first asks the store for the metadata
    of the stored copy.  When that lookup fails, or the copy has no
    Last-Modified value, or the value does not parse, the pass ends
    there: nothing is fetched and the filter is untouched.  Otherwise,
    with [modTime] the parsed value, the pass goes on to the update
    exactly when the current time is after [modTime] plus the refresh
    interval; provided the request can be built, the remote resource is
    fetched in that case and in no other.  The store is written in no
    other case either, and when nothing fails on the way it is written
    in that case: the stored copy is deleted, the content fetched is
    put under the same key, and the store then holds that content. *)
Theorem tick_updates_iff_stale (c : Cycle) (f : Filter) :
  (exists rest, snd (updater_pass Tick c f) = HeadObject (Filename (GFWList_ f)) :: rest) /\
  ((head_fails c = true \/
    Store f !! Filename (GFWList_ f) = None \/
    (exists h, Store f !! Filename (GFWList_ f) = Some h /\
               (LastModified h = "" \/ time_Parse (DateFormat f) (LastModified h) = None))) ->
   fst (updater_pass Tick c f) = f /\
   forall url, RoundTrip_ url ∉ snd (updater_pass Tick c f)) /\
  (forall h modTime,
     head_fails c = false ->
     Store f !! Filename (GFWList_ f) = Some h ->
     LastModified h <> "" ->
     time_Parse (DateFormat f) (LastModified h) = Some modTime ->
     (now c <= modTime + Duration (GFWList_ f) ->
      updater_pass Tick c f = (f, [HeadObject (Filename (GFWList_ f))])) /\
     (modTime + Duration (GFWList_ f) < now c ->
      updater_pass Tick c f =
        (fst (update c f), HeadObject (Filename (GFWList_ f)) :: snd (update c f))) /\
     (new_request_fails c = false ->
      (RoundTrip_ (URL (GFWList_ f)) ∈ snd (updater_pass Tick c f)
       <-> modTime + Duration (GFWList_ f) < now c)) /\
     (forall key, DeleteObject key ∈ snd (updater_pass Tick c f) ->
                  modTime + Duration (GFWList_ f) < now c) /\
     (forall key data, PutObject key data ∈ snd (updater_pass Tick c f) ->
                       modTime + Duration (GFWList_ f) < now c) /\
     (forall body data,
        new_request_fails c = false ->
        round_trip c = Some body ->
        read_all c (GFWList_ f) body = Some data ->
        delete_fails c = false ->
        put_fails c = false ->
        (modTime + Duration (GFWList_ f) < now c ->
         updater_pass Tick c f =
           (set_Store f (<[Filename (GFWList_ f) :=
                             {| LastModified := put_stamp c; Body := data |}]>
                           (delete (Filename (GFWList_ f)) (Store f))),
            [HeadObject (Filename (GFWList_ f)); InfoDownloading;
             RoundTrip_ (URL (GFWList_ f)); DeleteObject (Filename (GFWList_ f));
             PutObject (Filename (GFWList_ f)) data; InfoUpdateOK]) /\
         Store (fst (updater_pass Tick c f)) !! Filename (GFWList_ f)
           = Some {| LastModified := put_stamp c; Body := data |}) /\
        (DeleteObject (Filename (GFWList_ f)) ∈ snd (updater_pass Tick c f)
         <-> modTime + Duration (GFWList_ f) < now c) /\
        (PutObject (Filename (GFWList_ f)) data ∈ snd (updater_pass Tick c f)
         <-> modTime + Duration (GFWList_ f) < now c))).
Proof.
  split; [|split].
  - unfold updater_pass. destruct (stale c f) as [evs|[|]] eqn:Est; cbn.
    + eauto using stale_head_first.
    + destruct (update c f). cbn. eauto.
    + eauto.
  - intros Hskip.
    assert (exists evs, stale c f = inl evs) as [evs Est].
    { unfold stale. destruct Hskip as [Hh | [Hn | (h & Hh & [He | Hp])]].
      - rewrite Hh. eauto.
      - destruct (head_fails c); rewrite ?Hn; eauto.
      - destruct (head_fails c); [eauto|]. rewrite Hh, He. cbn. eauto.
      - destruct (head_fails c); [eauto|]. rewrite Hh.
        destruct (String.eqb _ ""); [eauto|]. rewrite Hp. eauto. }
    unfold updater_pass. rewrite Est. cbn. split; [reflexivity|].
    intros url. eauto using stale_skip_no_fetch.
  - intros h modTime Hh Hst Hlm Hp.
    assert (stale c f = inr (modTime + Duration (GFWList_ f) <? now c)) as Est.
    { unfold stale. rewrite Hh, Hst.
      destruct (String.eqb_spec (LastModified h) ""); [contradiction|].
      now rewrite Hp. }
    unfold updater_pass. rewrite Est.
    destruct (Z.ltb_spec (modTime + Duration (GFWList_ f)) (now c)) as [Hlt|Hge].
    + split; [lia|]. split; [|split; [|split; [|split]]].
      * intros _. now destruct (update c f).
      * intros Hn. pose proof (update_fetches c f Hn) as Hin.
        destruct (update c f) as [f1 evs]. cbn in *. split; [auto|].
        intros _. list_mem.
      * auto.
      * auto.
      * intros body data Hn Hrt Hra Hdf Hpf.
        unfold update. rewrite Hn, Hrt, Hra, Hdf, Hpf. cbn.
        split; [intros _; split; [reflexivity | apply lookup_insert_eq]|].
        split; (split; [auto|]); intros _; list_mem.
    + split; [auto|]. split; [lia|]. split; [|split; [|split]].
      * intros _. cbn. split; [|lia]. list_mem.
      * intros key. cbn. list_mem.
      * intros key data. cbn. list_mem.
      * intros body data _ _ _ _ _. split; [lia|].
        split; (split; [|lia]); cbn; list_mem.
Qed.

End WithLibraries.

(** At second 9000 the stored copy of second 1000 is older than the
    interval of 7200 seconds and the list is fetched; at second 5000 it
    is not. *)
Lemma tick_updates_iff_stale_witness :
  RoundTrip_ "https://example.org/gfwlist.txt"
    ∈ snd (updater_pass Samples.time_Parse Samples.base64_decode Tick
             (Samples.cycle_ok 9000) Samples.filter0) /\
  updater_pass Samples.time_Parse Samples.base64_decode Tick
    (Samples.cycle_ok 5000) Samples.filter0
  = (Samples.filter0, [HeadObject "gfwlist.txt"]) /\
  snd (updater_pass Samples.time_Parse Samples.base64_decode Tick
         (Samples.cycle_ok 9000) Samples.filter0)
  = [HeadObject "gfwlist.txt"; InfoDownloading;
     RoundTrip_ "https://example.org/gfwlist.txt"; DeleteObject "gfwlist.txt";
     PutObject "gfwlist.txt" Samples.new_rules; InfoUpdateOK] /\
  Store (fst (updater_pass Samples.time_Parse Samples.base64_decode Tick
                (Samples.cycle_ok 9000) Samples.filter0)) !! "gfwlist.txt"
  = Some {| LastModified := "9000"; Body := Samples.new_rules |} /\
  Store Samples.filter0 !! "gfwlist.txt"
  = Some {| LastModified := "1000"; Body := Samples.old_rules |}.
Proof.
  pose proof (tick_updates_iff_stale Samples.time_Parse Samples.base64_decode
                (Samples.cycle_ok 9000) Samples.filter0) as (_ & _ & Hstale).
  pose proof (tick_updates_iff_stale Samples.time_Parse Samples.base64_decode
                (Samples.cycle_ok 5000) Samples.filter0) as (_ & _ & Hfresh).
  specialize (Hstale {| LastModified := "1000"; Body := Samples.old_rules |}
                     (1000 * Second) eq_refl eq_refl ltac:(discriminate) eq_refl).
  specialize (Hfresh {| LastModified := "1000"; Body := Samples.old_rules |}
                     (1000 * Second) eq_refl eq_refl ltac:(discriminate) eq_refl).
  assert (1000 * Second + Duration (GFWList_ Samples.filter0) < now (Samples.cycle_ok 9000))
    as Hlt by (vm_compute; reflexivity).
  destruct Hstale as (_ & _ & Hfetch & _ & _ & Hstore).
  destruct (Hstore Samples.new_rules Samples.new_rules eq_refl eq_refl eq_refl eq_refl eq_refl)
    as (Hput & _).
  destruct (Hput Hlt) as (Hpass & Hcopy).
  split; [apply Hfetch; [reflexivity | exact Hlt]|].
  split; [apply Hfresh; vm_compute; discriminate|].
  split; [now rewrite Hpass|].
  split; [exact Hcopy | reflexivity].
Defined.

(** C2 fails as stated.  The pass of second 9000, on a manual flush:
    the update is reported as done, the stored copy is
    replaced by the new rules, reading it back as [NewFilter] does
    gives a generator for the new rules, and the generator of the
    filter still holds the old rules and still serves them. *)
Lemma generator_not_rebuilt :
  InfoUpdateOK ∈ snd Samples.flush_ok /\
  Store (fst Samples.flush_ok) !! "gfwlist.txt"
    = Some {| LastModified := "9000"; Body := Samples.new_rules |} /\
  load Samples.base64_decode (SiteList (fst Samples.flush_ok))
       (Store (fst Samples.flush_ok)) "gfwlist.txt"
    = Some {| Sites := ["example.com"]; Ruleset := Samples.new_rules |} /\
  AutoProxy2Pac_ (fst Samples.flush_ok)
    <> {| Sites := ["example.com"]; Ruleset := Samples.new_rules |} /\
  Ruleset (AutoProxy2Pac_ (fst Samples.flush_ok)) = Samples.old_rules /\
  snd (RoundTrip Samples.GeneratePac (fst Samples.flush_ok)
                 {| RequestURI := "/proxy.pac"; Query := "" |})
    = Some {| StatusCode := 200; ContentLength := 31; Body_ := Samples.old_rules |}.
Proof.
  split; [|split; [|split; [|split; [|split]]]].
  - vm_compute. repeat constructor.
  - vm_compute. reflexivity.
  - vm_compute. reflexivity.
  - vm_compute. discriminate.
  - reflexivity.
  - vm_compute. reflexivity.
Qed.

(** C5 fails as stated.  A pass in which the put fails aborts after
    the delete: the stored copy that was there before is gone. *)
Lemma put_failure_loses_copy :
  put_fails (Samples.cycle_put_fails 9000) = true /\
  WarnPut ∈ snd Samples.flush_put_fails /\
  (InfoUpdateOK ∉ snd Samples.flush_put_fails) /\
  Store Samples.filter0 !! "gfwlist.txt"
    = Some {| LastModified := "1000"; Body := Samples.old_rules |} /\
  Store (fst Samples.flush_put_fails) !! "gfwlist.txt" = None /\
  Store (fst Samples.flush_put_fails) <> Store Samples.filter0.
Proof.
  split; [reflexivity|]. split; [|split; [|split; [|split]]].
  - vm_compute. repeat constructor.
  - vm_compute. intros Hin. repeat (apply elem_of_cons in Hin as [Hin|Hin]; [discriminate|]).
    now apply elem_of_nil in Hin.
  - vm_compute. reflexivity.
  - vm_compute. reflexivity.
  - intros Heq.
    assert (Store (fst Samples.flush_put_fails) !! "gfwlist.txt"
            = Store Samples.filter0 !! "gfwlist.txt") as E by (now rewrite Heq).
    vm_compute in E. discriminate.
Qed.

End AutoproxyProps.

(** ** More on the listener *)

Module ListenerMore.
Import GoLib Httpproxy.

(** *** The schedule of delays *)

Lemma tempDelay_after_S k : tempDelay_after (S k) = backoff k.
Proof.
  assert (forall j, tempDelay_after j = delay_after j) as E.
  { induction j as [|j IH]; [reflexivity|].
    change (tempDelay_after (S j)) with (next_delay (tempDelay_after j)).
    rewrite IH. apply ListenerProps.next_delay_after. }
  now rewrite E.
Qed.

Lemma backoff_saturated k : (8 <= k)%nat -> backoff k = 1 * Second.
Proof.
  intros Hk. unfold backoff. apply Z.min_r.
  assert (2 ^ 8 <= 2 ^ Z.of_nat k) by (apply Z.pow_le_mono_r; lia).
  unfold Second, Millisecond. lia.
Qed.

Lemma backoff_mono k : backoff k <= backoff (S k).
Proof.
  rewrite ListenerProps.backoff_S.
  pose proof (ListenerProps.backoff_pos k). pose proof (ListenerProps.backoff_le k).
  lia.
Qed.

(** The delays the code computes for temporary errors in a row are
    5, 10, 20, 40, 80, 160, 320 and 640 ms and then 1 s for ever; the
    delay never decreases. *)
Theorem tempDelay_schedule :
  map tempDelay_after (seq 1 9)
  = map (fun ms => ms * Millisecond) [5; 10; 20; 40; 80; 160; 320; 640; 1000] /\
  (forall k, (9 <= k)%nat -> tempDelay_after k = 1 * Second) /\
  (forall k, tempDelay_after k <= tempDelay_after (S k)).
Proof.
  split; [reflexivity|]. split.
  - intros k Hk. destruct k as [|k]; [lia|].
    rewrite tempDelay_after_S. apply backoff_saturated. lia.
  - intros k. destruct k as [|k].
    + rewrite tempDelay_after_S. pose proof (ListenerProps.backoff_pos 0).
      change (tempDelay_after 0) with 0. lia.
    + rewrite !tempDelay_after_S. apply backoff_mono.
Qed.

(** *** Add and Accept in sequence *)

Lemma once_Do_same l :
  lane (once_Do l) = lane l /\
  keepAlivePeriod (once_Do l) = keepAlivePeriod l /\
  stopped (once_Do l) = stopped l /\
  ln (once_Do l) = ln l /\
  once (once_Do l) = true.
Proof. unfold once_Do. destruct (once l) eqn:E; cbn; auto. Qed.

Lemma Accept_deliver l :
  Accept l =
  match buf (lane l) with
  | r :: rest =>
      Done (set_lane (started l) {| buf := rest; closed := closed (lane l) |}) (deliver l r)
  | [] => if closed (lane l) then Done (started l) (None, None) else Blocked
  end.
Proof.
  unfold Accept, recv, deliver, started.
  destruct (once_Do_same l) as (Hl & Hk & _). rewrite Hl.
  destruct (buf (lane l)) as [|r rest].
  { destruct (closed (lane l)); cbn; [|reflexivity].
    rewrite Hk. now destruct (0 <? keepAlivePeriod l). }
  cbn [set_lane keepAlivePeriod]. rewrite Hk.
  destruct (err r); [reflexivity|].
  destruct (0 <? keepAlivePeriod l); cbn; [|now destruct (conn r)].
  destruct (conn r) as [c|]; [|reflexivity]. now destruct (is_TCPConn c).
Qed.

Lemma deliver_ext l l' r :
  keepAlivePeriod l' = keepAlivePeriod l -> deliver l' r = deliver l r.
Proof. intros E. unfold deliver. now rewrite E. Qed.

(** [Accept] hands out what is in the queue, oldest first. *)
Lemma accept_n_queue q :
  forall l, buf (lane l) = q ->
    exists l', accept_n (length q) l = Some (map (deliver l) q, l') /\
               buf (lane l') = [] /\
               closed (lane l') = closed (lane l) /\
               stopped l' = stopped l.
Proof.
  induction q as [|r rest IH]; intros l Hq.
  - exists l. cbn. auto.
  - cbn [length accept_n]. rewrite Accept_deliver, Hq.
    destruct (IH (set_lane (started l) {| buf := rest; closed := closed (lane l) |}) eq_refl)
      as (l' & Ha & Hb & Hc & Hs).
    rewrite (map_ext _ (deliver l)) in Ha
      by (intros x; apply deliver_ext; cbn; apply once_Do_same).
    rewrite Ha. exists l'. split; [reflexivity|].
    cbn in Hc, Hs. unfold started in Hs.
    destruct (once_Do_same l) as (_ & _ & Hst & _). rewrite Hst in Hs. auto.
Qed.

(** [Add] appends to the queue as long as there is room. *)
Lemma add_all_push cs :
  forall l, stopped l = false -> closed (lane l) = false ->
    (length (buf (lane l)) + length cs <= backlog)%nat ->
    add_all cs l = Some (push l (map injected cs)).
Proof.
  induction cs as [|c cs IH]; intros l Hs Hc Hl.
  - cbn. now rewrite ListenerProps.push_nil.
  - cbn [add_all length map] in *. unfold Add. rewrite Hs.
    rewrite ListenerProps.send_open by (assumption || lia).
    rewrite IH.
    + now rewrite ListenerProps.push_push.
    + exact Hs.
    + exact Hc.
    + unfold push. cbn. rewrite length_app. cbn. lia.
Qed.

(** Connections injected with [Add] into an open listener with room
    are returned by [Accept] after what was already queued and in the
    order of the calls, each with the keep-alive period set when one is
    configured and the connection is TCP; the queue is then empty. *)
Theorem Add_Accept_fifo (l : listener) (cs : list Conn) :
  stopped l = false ->
  closed (lane l) = false ->
  (length (buf (lane l)) + length cs <= backlog)%nat ->
  exists l1 l2,
    add_all cs l = Some l1 /\
    buf (lane l1) = (buf (lane l) ++ map injected cs)%list /\
    accept_n (length (buf (lane l)) + length cs) l1
      = Some (map (deliver l) (buf (lane l) ++ map injected cs), l2) /\
    buf (lane l2) = [].
Proof.
  intros Hs Hc Hl.
  destruct (accept_n_queue (buf (lane l) ++ map injected cs) (push l (map injected cs)) eq_refl)
    as (l2 & Ha & Hb & _).
  exists (push l (map injected cs)), l2.
  split; [now apply add_all_push|]. split; [reflexivity|].
  rewrite length_app, length_map in Ha. split; [exact Ha | exact Hb].
Qed.

Lemma Add_Accept_fifo_witness :
  stopped MoreSamples.keepalive_listener = false /\
  closed (lane MoreSamples.keepalive_listener) = false /\
  (length (buf (lane MoreSamples.keepalive_listener))
   + length [Samples.tcp_conn 1; MoreSamples.unix_conn 2] <= backlog)%nat /\
  exists l1 l2,
    add_all [Samples.tcp_conn 1; MoreSamples.unix_conn 2] MoreSamples.keepalive_listener = Some l1 /\
    accept_n 2 l1
      = Some ([(Some {| conn_id := 1; is_TCPConn := true; keepAlive := Some (30 * Second) |}, None);
               (Some (MoreSamples.unix_conn 2), None)], l2).
Proof.
  assert (length (buf (lane MoreSamples.keepalive_listener))
          + length [Samples.tcp_conn 1; MoreSamples.unix_conn 2] <= backlog)%nat as Hl
    by (apply Nat.leb_le; vm_compute; reflexivity).
  split; [reflexivity|]. split; [reflexivity|]. split; [exact Hl|].
  destruct (Add_Accept_fifo MoreSamples.keepalive_listener
              [Samples.tcp_conn 1; MoreSamples.unix_conn 2] eq_refl eq_refl Hl)
    as (l1 & l2 & Hadd & _ & Hacc & _).
  exists l1, l2. split; [exact Hadd | exact Hacc].
Defined.

(** *** What a listener never does *)

Ltac unfold_calls :=
  unfold exec, Accept, once_Do, recv, Close, Add, send, set_lane in *.

Lemma exec_bounded op l l1 :
  exec op l = Some l1 ->
  (length (buf (lane l)) <= backlog)%nat -> (length (buf (lane l1)) <= backlog)%nat.
Proof.
  intros He Hb. destruct op; unfold_calls;
    repeat case_match; simplify_eq; cbn [lane buf length] in *;
    repeat match goal with
           | H : (_ <? _)%nat = true |- _ => apply Nat.ltb_lt in H
           | H : buf _ = _ |- _ => rewrite H in *
           end;
    cbn [lane buf length] in *; rewrite ?length_app in *; cbn [length] in *; lia.
Qed.

Lemma steps_bounded l ops l' :
  steps l ops l' ->
  (length (buf (lane l)) <= backlog)%nat -> (length (buf (lane l')) <= backlog)%nat.
Proof. induction 1; eauto using exec_bounded. Qed.

(** On a listener obtained from [ListenTCP], whatever calls were made
    since: the queue holds at most [backlog] entries, it is closed
    exactly when the listener is stopped, and neither [Close] nor [Add]
    nor [Accept] panics (no second close of the queue, no send of [Add]
    on a closed queue). *)
Theorem listener_calls_never_panic (l : listener) :
  reachable l ->
  (length (buf (lane l)) <= backlog)%nat /\
  closed (lane l) = stopped l /\
  (forall msg, Close l <> Crash msg) /\
  (forall c msg, Add c l <> Crash msg) /\
  (forall msg, Accept l <> Crash msg).
Proof.
  intros Hr. pose proof (ListenerProps.reachable_closed_iff_stopped l Hr) as Hc.
  destruct Hr as (bound & opts & l0 & ops & Hl & Hs).
  assert (length (buf (lane l)) <= backlog)%nat as Hb.
  { apply (steps_bounded _ _ _ Hs).
    unfold ListenTCP in Hl. destruct bound; [discriminate|].
    injection Hl as <-. cbn. lia. }
  split; [exact Hb|]. split; [exact Hc|]. split; [|split].
  - intros msg. unfold Close. destruct (stopped l); [discriminate|].
    rewrite Hc. discriminate.
  - intros c msg. unfold Add, send. destruct (stopped l); [discriminate|].
    rewrite Hc. now destruct (_ <? _)%nat.
  - intros msg. rewrite Accept_deliver.
    destruct (buf (lane l)); [|discriminate]. now destruct (closed (lane l)).
Qed.

Lemma served_closed_reachable : reachable MoreSamples.served_closed_listener.
Proof.
  exists (inr Samples.raw_listener), None, Samples.fresh_listener,
         [OpAdd (Samples.tcp_conn 1); OpAccept; OpAdd (MoreSamples.unix_conn 2); OpClose].
  split; [reflexivity|].
  repeat (eapply steps_cons; [reflexivity|]). apply steps_nil.
Qed.

Lemma listener_calls_never_panic_witness :
  reachable MoreSamples.served_closed_listener /\
  stopped MoreSamples.served_closed_listener = true /\
  closed (lane MoreSamples.served_closed_listener) = true /\
  buf (lane MoreSamples.served_closed_listener) = [injected (MoreSamples.unix_conn 2)] /\
  (length (buf (lane MoreSamples.served_closed_listener)) <= backlog)%nat /\
  closed (lane MoreSamples.served_closed_listener) = stopped MoreSamples.served_closed_listener /\
  (forall msg, Close MoreSamples.served_closed_listener <> Crash msg) /\
  (forall c msg, Add c MoreSamples.served_closed_listener <> Crash msg) /\
  (forall msg, Accept MoreSamples.served_closed_listener <> Crash msg).
Proof.
  split; [exact served_closed_reachable|].
  split; [reflexivity|]. split; [reflexivity|]. split; [reflexivity|].
  exact (listener_calls_never_panic MoreSamples.served_closed_listener
           served_closed_reachable).
Defined.

(** *** Accept on a closed listener *)

Lemma once_Do_goroutines l :
  goroutines l = (if once l then [AcceptWorker] else []) ->
  goroutines (once_Do l) = [AcceptWorker].
Proof. unfold once_Do. destruct (once l) eqn:E; cbn; intros ->; reflexivity. Qed.

(** The worker is listed from the first [Accept] on, and only then. *)
Lemma exec_goroutines op l l1 :
  exec op l = Some l1 ->
  goroutines l = (if once l then [AcceptWorker] else []) ->
  goroutines l1 = (if once l1 then [AcceptWorker] else []).
Proof.
  intros He Hg. destruct op; cbn [exec] in He.
  - rewrite Accept_deliver in He. unfold started in He.
    pose proof (once_Do_goroutines l Hg) as Hg'.
    destruct (once_Do_same l) as (_ & _ & _ & _ & Ho).
    destruct (buf (lane l)); [destruct (closed (lane l))|]; simplify_eq;
      cbn [set_lane goroutines once]; now rewrite Ho, Hg'.
  - unfold Close in He.
    destruct (stopped l); [|destruct (closed (lane l))]; simplify_eq; exact Hg.
  - unfold Add, send, set_lane in He.
    destruct (stopped l); [|destruct (closed (lane l)); [|destruct (_ <? _)%nat]];
      simplify_eq; exact Hg.
  - unfold send, set_lane in He.
    destruct (closed (lane l)); [|destruct (_ <? _)%nat]; simplify_eq; exact Hg.
Qed.

Lemma steps_goroutines l ops l' :
  steps l ops l' ->
  goroutines l = (if once l then [AcceptWorker] else []) ->
  goroutines l' = (if once l' then [AcceptWorker] else []).
Proof. induction 1; eauto using exec_goroutines. Qed.

Lemma reachable_goroutines l :
  reachable l -> goroutines l = (if once l then [AcceptWorker] else []).
Proof.
  intros (bound & opts & l0 & ops & Hl & Hs).
  apply (steps_goroutines _ _ _ Hs).
  unfold ListenTCP in Hl. destruct bound; [discriminate|]. now injection Hl as <-.
Qed.

(** The send of a worker on a closed queue. *)
Lemma worker_send_on_closed r script d l :
  closed (lane l) = true ->
  worker (r :: script) d l = (Panicked "send on closed channel", l, []).
Proof. intros Hc. cbn [worker]. unfold worker_iter, send. now rewrite Hc. Qed.

(** On a listener obtained from [ListenTCP] and since closed, a call of
    [Accept] does not block on its receive: taken by itself it hands
    out the oldest entry left in the queue, or nil, nil when the queue
    is empty, and leaves the queue closed.  But the call has run its
    [once.Do]: the acceptance worker is started, by this call if by no
    earlier one, and as soon as that worker, whatever its [tempDelay],
    obtains a result from [l.ln.Accept()], its send panics with send on
    closed channel, having published nothing. *)
Theorem Accept_after_Close (l : listener) :
  reachable l ->
  stopped l = true ->
  exists l',
    Accept l = Done l' (match buf (lane l) with
                        | r :: _ => deliver l r
                        | [] => (None, None)
                        end) /\
    buf (lane l') = tail (buf (lane l)) /\
    closed (lane l') = true /\
    stopped l' = true /\
    once l' = true /\
    goroutines l' = [AcceptWorker] /\
    forall g r script tempDelay,
      g ∈ goroutines l' ->
      run g (r :: script) tempDelay l' = (Panicked "send on closed channel", l', []).
Proof.
  intros Hr Hs.
  pose proof (ListenerProps.reachable_closed_iff_stopped l Hr) as Hc. rewrite Hs in Hc.
  pose proof (once_Do_goroutines l (reachable_goroutines l Hr)) as Hg.
  destruct (once_Do_same l) as (Hl & _ & Hst & _ & Ho).
  rewrite Accept_deliver, Hc. unfold started.
  destruct (buf (lane l)) as [|r rest] eqn:Hq; eexists; (split; [reflexivity|]);
    cbn [set_lane lane buf closed stopped once goroutines tail];
    rewrite ?Hl, ?Hst, ?Ho, ?Hg, ?Hq; repeat (split; [congruence|]);
    intros [] r' script d _; apply worker_send_on_closed; cbn; congruence.
Qed.

Lemma Accept_after_Close_witness :
  reachable MoreSamples.closed_listener /\
  stopped MoreSamples.closed_listener = true /\
  goroutines MoreSamples.closed_listener = [] /\
  exists l',
    Accept MoreSamples.closed_listener = Done l' (Some (Samples.tcp_conn 1), None) /\
    buf (lane l') = [] /\
    goroutines l' = [AcceptWorker] /\
    run AcceptWorker [Samples.failed Samples.perm_error] 0 l'
      = (Panicked "send on closed channel", l', []).
Proof.
  assert (reachable MoreSamples.closed_listener) as Hr.
  { exists (inr Samples.raw_listener), None, Samples.fresh_listener,
           [OpAdd (Samples.tcp_conn 1); OpClose].
    split; [reflexivity|].
    eapply steps_cons; [reflexivity|].
    eapply steps_cons; [reflexivity|]. apply steps_nil. }
  split; [exact Hr|]. split; [reflexivity|]. split; [reflexivity|].
  destruct (Accept_after_Close MoreSamples.closed_listener Hr eq_refl)
    as (l' & Ha & Hb & _ & _ & _ & Hg & Hw).
  exists l'. split; [exact Ha|]. split; [exact Hb|]. split; [exact Hg|].
  apply Hw. rewrite Hg. apply list_elem_of_here.
Defined.

End ListenerMore.

(** ** More on the dialer *)

Module DirectMore.
Import GoLib Direct.

Section WithCache.
Context {C : Type} `{Cache C}.

Lemma init_heap (e : Env) (d : Dialer) (w : World C) l c :
  heap w !! l = Some c -> heap (snd (init e d w)) !! l = Some c.
Proof.
  intros Hl. unfold init. destruct (once d); cbn; [exact Hl|].
  now apply lookup_app_l_Some.
Qed.

Lemma connects_app t1 t2 : connects (t1 ++ t2) = (connects t1 ++ connects t2)%list.
Proof. unfold connects. apply filter_app. Qed.

Lemma lookups_app t1 t2 : lookups (t1 ++ t2) = (lookups t1 ++ lookups t2)%list.
Proof. unfold lookups. apply filter_app. Qed.

Lemma sleeps_app t1 t2 : sleeps (t1 ++ t2) = (sleeps t1 ++ sleeps t2)%list.
Proof. unfold sleeps. apply filter_app. Qed.

Lemma filter_events :
  (forall n a t, connects (EvConnect n a :: t) = EvConnect n a :: connects t) /\
  (forall x t, connects (EvSleep x :: t) = connects t) /\
  (forall h t, connects (EvLookupIP h :: t) = connects t) /\
  (forall n a t, sleeps (EvConnect n a :: t) = sleeps t) /\
  (forall x t, sleeps (EvSleep x :: t) = EvSleep x :: sleeps t) /\
  (forall h t, sleeps (EvLookupIP h :: t) = sleeps t) /\
  (forall n a t, lookups (EvConnect n a :: t) = lookups t) /\
  (forall x t, lookups (EvSleep x :: t) = lookups t) /\
  (forall h t, lookups (EvLookupIP h :: t) = EvLookupIP h :: lookups t).
Proof.
  unfold connects, sleeps, lookups.
  repeat split; intros;
    first [ now rewrite filter_cons_True by reflexivity
          | now rewrite filter_cons_False by discriminate ].
Qed.

Ltac simpl_filters :=
  destruct filter_events as (Fcc & Fcs & Fcl & Fsc & Fss & Fsl & Flc & Fls & Fll);
  rewrite ?Fcc, ?Fcs, ?Fcl, ?Fsc, ?Fss, ?Fsl, ?Flc, ?Fls, ?Fll;
  clear Fcc Fcs Fcl Fsc Fss Fsl Flc Fls Fll.

Lemma retry_events (e : Env) (d : Dialer) network address :
  forall n i r (w : World C),
    exists evs,
      trace (snd (retry e d network address n i r w)) = (trace w ++ evs)%list /\
      heap (snd (retry e d network address n i r w)) = heap w /\
      loop_events d network address n evs.
Proof.
  unfold loop_events.
  induction n as [|n IH]; intros i r w; cbn [retry].
  - exists []. cbn. rewrite app_nil_r. repeat split; auto.
  - destruct (_ || _).
    + exists [EvConnect network address]. cbn [snd log trace heap].
      simpl_filters. repeat split; auto; cbn; lia.
    + destruct (IH (i + 1) (NetDial e (attempts w) network address)
                   (Sleep (RetryDelay d) (log (EvConnect network address) w)))
        as (evs & Ht & Hh & Hf & Hc & Hs & Hl).
      exists (EvConnect network address :: EvSleep (RetryDelay d) :: evs).
      simpl_filters. split; [|split].
      * rewrite Ht. cbn. now rewrite <- !app_assoc.
      * rewrite Hh. reflexivity.
      * repeat split; auto; cbn [length]; lia.
Qed.

Lemma dial_loop_events (e : Env) (d : Dialer) network address (w : World C) :
  exists conn err evs,
    fst (dial_loop e d network address w) = Return conn err /\
    trace (snd (dial_loop e d network address w)) = (trace w ++ evs)%list /\
    heap (snd (dial_loop e d network address w)) = heap w /\
    loop_events d network address (Z.to_nat (RetryTimes d)) evs.
Proof.
  unfold dial_loop.
  destruct (retry_events e d network address (Z.to_nat (RetryTimes d)) 0 (None, None) w)
    as (evs & Ht & Hh & Hl).
  destruct (retry e d network address _ 0 (None, None) w) as [[conn err] w1].
  exists conn, err, evs. cbn in *. auto.
Qed.

(** What the miss branch adds to the trace: one resolution at most. *)
Lemma resolve_events (e : Env) (d : Dialer) l c address (w : World C) :
  exists evs,
    trace (snd (resolve e d l c address w)) = (trace w ++ evs)%list /\
    connects evs = [] /\ sleeps evs = [] /\ (length (lookups evs) <= 1)%nat.
Proof.
  unfold resolve. destruct (SplitHostPort e address) as [[host port]|].
  - exists [EvLookupIP host]. simpl_filters.
    split; [|cbn; auto].
    destruct (LookupIP e host) as [[|ip ips]|]; cbn; try reflexivity.
    now destruct (match loAddrs d with Some s => bool_decide (ip ∈ s) | None => false end).
  - exists []. cbn. rewrite app_nil_r. auto.
Qed.

(** Whatever the dialer, the network and the world, a call of [Dial]
    makes at most [d.RetryTimes] connect attempts, at most one
    resolution, and never more sleeps than connects. *)
Theorem Dial_attempts_bounded (e : Env) (d : Dialer) network address (w : World C) :
  exists evs,
    trace (snd (Dial e d network address w)) = (trace w ++ evs)%list /\
    (length (connects evs) <= Z.to_nat (RetryTimes d))%nat /\
    (length (sleeps evs) <= length (connects evs))%nat /\
    (length (lookups evs) <= 1)%nat.
Proof.
  unfold Dial. pose proof (DirectProps.init_world e d w) as [Ht0 _].
  destruct (init e d w) as [d0 w0]. cbn in Ht0.
  assert (forall address (w1 : World C) evs1,
             trace w1 = (trace w ++ evs1)%list ->
             connects evs1 = [] -> sleeps evs1 = [] -> (length (lookups evs1) <= 1)%nat ->
             exists evs,
               trace (snd (dial_loop e d network address w1)) = (trace w ++ evs)%list /\
               (length (connects evs) <= Z.to_nat (RetryTimes d))%nat /\
               (length (sleeps evs) <= length (connects evs))%nat /\
               (length (lookups evs) <= 1)%nat) as Loop.
  { intros a w1 evs1 Ht Hc Hs Hl.
    destruct (dial_loop_events e d network a w1)
      as (conn & err & evs & _ & Htr & _ & _ & Hcn & Hsl & Hlk).
    exists (evs1 ++ evs)%list. rewrite Htr, Ht, <- app_assoc.
    rewrite connects_app, sleeps_app, lookups_app, !length_app, Hc, Hs, Hlk.
    cbn. repeat split; lia. }
  assert (exists evs : list Event,
             trace w0 = (trace w ++ evs)%list /\
             (length (connects evs) <= Z.to_nat (RetryTimes d))%nat /\
             (length (sleeps evs) <= length (connects evs))%nat /\
             (length (lookups evs) <= 1)%nat) as Nothing.
  { exists []. rewrite app_nil_r. cbn. repeat split; auto; lia. }
  destruct (is_tcp network).
  - destruct (dnsCache d) as [l|]; [|exact Nothing].
    destruct (heap w0 !! l) as [c|]; [|exact Nothing].
    destruct (cache_Get c (now w0) address) as [[addr|] c1].
    + apply (Loop addr _ []); cbn; auto. now rewrite app_nil_r.
    + destruct (resolve_events e d l c1 address (store l c1 w0))
        as (evs1 & Ht & Hc & Hs & Hl).
      cbn [store trace] in Ht. rewrite Ht0 in Ht.
      destruct (resolve e d l c1 address (store l c1 w0)) as [[err|addr] w1]; cbn in Ht.
      * exists evs1. cbn. rewrite Hc, Hs. cbn. repeat split; auto; lia.
      * now apply (Loop addr w1 evs1).
  - apply (Loop address w0 []); cbn; auto. now rewrite app_nil_r.
Qed.

(** On a network other than tcp, tcp4 and tcp6, [Dial] resolves
    nothing and touches no cache: it only connects to the address it
    was given, sleeping [d.RetryDelay] between attempts. *)
Theorem Dial_other_network (e : Env) (d : Dialer) network address (w : World C) :
  is_tcp network = false ->
  exists conn err evs,
    fst (Dial e d network address w) = Return conn err /\
    trace (snd (Dial e d network address w)) = (trace w ++ evs)%list /\
    Forall (fun ev => ev = EvConnect network address \/ ev = EvSleep (RetryDelay d)) evs /\
    lookups evs = [] /\
    heap (snd (Dial e d network address w)) = heap (snd (init e d w)).
Proof.
  intros Ht. unfold Dial. pose proof (DirectProps.init_world e d w) as [Ht0 _].
  destruct (init e d w) as [d0 w0]. cbn in *. rewrite Ht.
  destruct (dial_loop_events e d network address w0)
    as (conn & err & evs & Hr & Htr & Hh & Hf & _ & _ & Hl).
  exists conn, err, evs. rewrite Htr, Ht0. auto.
Qed.

(** With [d.RetryTimes] above [k], on a network other than TCP, a dial
    whose first [k] attempts fail and whose next attempt connects
    returns that connection after [k + 1] attempts and [k] sleeps. *)
Theorem Dial_retries_until_success (e : Env) (d : Dialer) network address
        (w : World C) (conn : Conn) (k : nat) :
  is_tcp network = false ->
  Z.of_nat k < RetryTimes d ->
  (forall j, (j < k)%nat ->
     is_nil_err (snd (NetDial e (attempts w + j) network address)) = false) ->
  NetDial e (attempts w + k) network address = (Some conn, None) ->
  fst (Dial e d network address w) = Return (Some conn) None /\
  trace (snd (Dial e d network address w))
  = (trace w ++ attempts_trace network address (RetryDelay d) k)%list.
Proof.
  intros Ht Hk Hfail Hok. unfold Dial.
  pose proof (DirectProps.init_world e d w) as [Ht0 _].
  destruct (init e d w) as [d0 w0]. cbn in Ht0. rewrite Ht. unfold dial_loop.
  assert (attempts w0 = attempts w) as Ha by (unfold attempts; now rewrite Ht0).
  destruct (DirectProps.retry_until_success e d network address conn k
              (Z.to_nat (RetryTimes d)) 0 (None, None) w0) as (w' & Hr & Htr).
  - lia.
  - lia.
  - intros j Hj. rewrite Ha. now apply Hfail.
  - now rewrite Ha.
  - rewrite Hr. cbn. now rewrite Htr, Ht0.
Qed.

(** With [d.RetryTimes] at [n + 1], on a network other than TCP, a
    dial whose attempts all fail makes [n + 1] attempts with [n] sleeps
    and returns what the last attempt returned. *)
Theorem Dial_retries_exhausted (e : Env) (d : Dialer) network address
        (w : World C) (n : nat) :
  is_tcp network = false ->
  RetryTimes d = Z.of_nat (S n) ->
  (forall j, (j <= n)%nat ->
     is_nil_err (snd (NetDial e (attempts w + j) network address)) = false) ->
  fst (Dial e d network address w)
  = Return (fst (NetDial e (attempts w + n) network address))
           (snd (NetDial e (attempts w + n) network address)) /\
  trace (snd (Dial e d network address w))
  = (trace w ++ attempts_trace network address (RetryDelay d) n)%list.
Proof.
  intros Ht Hn Hfail. unfold Dial.
  pose proof (DirectProps.init_world e d w) as [Ht0 _].
  destruct (init e d w) as [d0 w0]. cbn in Ht0. rewrite Ht. unfold dial_loop.
  assert (attempts w0 = attempts w) as Ha by (unfold attempts; now rewrite Ht0).
  destruct (DirectProps.retry_exhausted e d network address n 0 (None, None) w0)
    as (w' & Hr & Htr).
  - lia.
  - intros j Hj. rewrite Ha. now apply Hfail.
  - replace (Z.to_nat (RetryTimes d)) with (S n) by lia.
    rewrite Hr, Ha.
    destruct (NetDial e (attempts w + n) network address) as [c err].
    cbn. now rewrite Htr, Ht0.
Qed.

(** A hit in the cache of the struct: no resolution is made and every
    connect goes to the cached address. *)
Theorem Dial_cache_hit (e : Env) (d : Dialer) network address (w : World C)
        (l : nat) (c c1 : C) (addr : string) :
  is_tcp network = true ->
  dnsCache d = Some l ->
  heap w !! l = Some c ->
  cache_Get c (now w) address = (Some addr, c1) ->
  exists conn err evs,
    fst (Dial e d network address w) = Return conn err /\
    trace (snd (Dial e d network address w)) = (trace w ++ evs)%list /\
    Forall (fun ev => ev = EvConnect network addr \/ ev = EvSleep (RetryDelay d)) evs /\
    lookups evs = [] /\
    heap (snd (Dial e d network address w)) !! l = Some c1.
Proof.
  intros Ht Hc Hh Hg. unfold Dial.
  pose proof (DirectProps.init_world e d w) as [Ht0 Hn0].
  pose proof (init_heap e d w l c Hh) as Hh0.
  destruct (init e d w) as [d0 w0]. cbn in Ht0, Hn0, Hh0.
  rewrite Ht, Hc, Hh0, Hn0, Hg.
  destruct (dial_loop_events e d network addr (store l c1 w0))
    as (conn & err & evs & Hr & Htr & Hhp & Hf & _ & _ & Hl).
  exists conn, err, evs. rewrite Hr, Htr, Hhp. cbn. rewrite Ht0.
  repeat split; auto.
  apply list_lookup_insert_eq. eauto using lookup_lt_Some.
Qed.

(** A miss whose first resolved address is not rejected: the joined
    address is stored in the cache under the address dialled, with the
    expiry [now + d.DNSCacheExpires], and the connects go to it. *)
Theorem Dial_miss_caches (e : Env) (d : Dialer) network address (w : World C)
        (l : nat) (c c1 : C) (host port ip : string) (ips : list string) :
  is_tcp network = true ->
  dnsCache d = Some l ->
  heap w !! l = Some c ->
  cache_Get c (now w) address = (None, c1) ->
  SplitHostPort e address = Some (host, port) ->
  LookupIP e host = Some (ip :: ips) ->
  (forall s, loAddrs d = Some s -> ip ∉ s) ->
  exists conn err evs,
    fst (Dial e d network address w) = Return conn err /\
    trace (snd (Dial e d network address w)) = (trace w ++ EvLookupIP host :: evs)%list /\
    Forall (fun ev => ev = EvConnect network (JoinHostPort ip port) \/
                      ev = EvSleep (RetryDelay d)) evs /\
    heap (snd (Dial e d network address w)) !! l
    = Some (cache_Set c1 (now w) address (JoinHostPort ip port) (now w + DNSCacheExpires d)).
Proof.
  intros Ht Hc Hh Hg Hsp Hlk Hlo. unfold Dial.
  pose proof (DirectProps.init_world e d w) as [Ht0 Hn0].
  pose proof (init_heap e d w l c Hh) as Hh0.
  destruct (init e d w) as [d0 w0]. cbn in Ht0, Hn0, Hh0.
  rewrite Ht, Hc, Hh0, Hn0, Hg. unfold resolve. rewrite Hsp, Hlk.
  assert (match loAddrs d with Some s => bool_decide (ip ∈ s) | None => false end = false) as Hrej.
  { destruct (loAddrs d) as [s|]; [|reflexivity].
    apply bool_decide_eq_false_2. now apply Hlo. }
  rewrite Hrej.
  match goal with
  | |- context [dial_loop e d network ?a ?w1] =>
      destruct (dial_loop_events e d network a w1)
        as (conn & err & evs & Hr & Htr & Hhp & Hf & _)
  end.
  exists conn, err, evs. rewrite Hr, Htr, Hhp. cbn. rewrite Ht0, Hn0.
  repeat split; auto.
  - now rewrite <- app_assoc.
  - apply list_lookup_insert_eq. rewrite length_insert. eauto using lookup_lt_Some.
Qed.

Lemma attempts_trace_events network address delay k :
  Forall (fun ev => ev = EvConnect network address \/ ev = EvSleep delay)
         (attempts_trace network address delay k).
Proof.
  induction k as [|k IH]; cbn; [repeat constructor; auto|].
  constructor; [auto|]. constructor; [auto | exact IH].
Qed.

(** The loop, when it is entered: it stops at the first attempt that
    succeeds or at the last one admitted, and returns what that attempt
    returned. *)
Lemma retry_result (e : Env) (d : Dialer) network address :
  forall n i r (w : World C),
    i + Z.of_nat (S n) = RetryTimes d ->
    exists k w',
      (k <= n)%nat /\
      retry e d network address (S n) i r w
        = (NetDial e (attempts w + k) network address, w') /\
      trace w' = (trace w ++ attempts_trace network address (RetryDelay d) k)%list /\
      heap w' = heap w /\
      (forall j, (j < k)%nat ->
         is_nil_err (snd (NetDial e (attempts w + j) network address)) = false) /\
      (is_nil_err (snd (NetDial e (attempts w + k) network address)) = true \/ k = n).
Proof.
  induction n as [|n IH]; intros i r w Hi; cbn [retry];
    destruct (is_nil_err (snd (NetDial e (attempts w) network address))) eqn:E; cbn [orb].
  - exists 0%nat, (log (EvConnect network address) w). rewrite Nat.add_0_r.
    repeat split; auto; intros; lia.
  - destruct (Z.eqb_spec i (RetryTimes d - 1)) as [_|Hne]; [|lia].
    exists 0%nat, (log (EvConnect network address) w). rewrite Nat.add_0_r.
    repeat split; auto; intros; lia.
  - exists 0%nat, (log (EvConnect network address) w). rewrite Nat.add_0_r.
    repeat split; auto; intros; lia.
  - destruct (Z.eqb_spec i (RetryTimes d - 1)) as [Heq|_]; [lia|].
    destruct (IH (i + 1) (NetDial e (attempts w) network address)
                 (Sleep (RetryDelay d) (log (EvConnect network address) w)))
      as (k & w' & Hk & Hr & Htr & Hh & Hfail & Hlast); [lia|].
    rewrite DirectProps.attempts_Sleep, DirectProps.attempts_log_connect in Hr, Hfail, Hlast.
    exists (S k), w'.
    replace (attempts w + S k)%nat with (S (attempts w) + k)%nat by lia.
    split; [lia|]. split; [exact Hr|]. split; [|split; [exact Hh|split]].
    + rewrite Htr. cbn. now rewrite <- !app_assoc.
    + intros [|j] Hj; [now rewrite Nat.add_0_r|].
      replace (attempts w + S j)%nat with (S (attempts w) + j)%nat by lia.
      apply Hfail. lia.
    + destruct Hlast as [Hl | ->]; auto.
Qed.

(** A miss that cannot be resolved (the address does not split, or the
    lookup fails or returns no address): nothing is stored in the
    cache, no error of the dialer's own is returned, and the loop
    connects to the address as given.  With [d.RetryTimes] positive the
    result is the one of the connect attempt the loop stops at, the
    first that succeeds or else the last; otherwise no attempt is made
    and the result is nil, nil. *)
Theorem Dial_unresolved_falls_through (e : Env) (d : Dialer) network address (w : World C)
        (l : nat) (c c1 : C) :
  is_tcp network = true ->
  dnsCache d = Some l ->
  heap w !! l = Some c ->
  cache_Get c (now w) address = (None, c1) ->
  (SplitHostPort e address = None \/
   exists host port, SplitHostPort e address = Some (host, port) /\
                     (LookupIP e host = None \/ LookupIP e host = Some [])) ->
  exists conn err evs,
    fst (Dial e d network address w) = Return conn err /\
    trace (snd (Dial e d network address w)) = (trace w ++ evs)%list /\
    Forall (fun ev => is_lookup ev = true \/ ev = EvConnect network address \/
                      ev = EvSleep (RetryDelay d)) evs /\
    heap (snd (Dial e d network address w)) !! l = Some c1 /\
    (RetryTimes d <= 0 ->
     conn = None /\ err = None /\ evs = lookup_events e address) /\
    (0 < RetryTimes d ->
     exists k,
       Z.of_nat k < RetryTimes d /\
       (conn, err) = NetDial e (attempts w + k) network address /\
       evs = (lookup_events e address
              ++ attempts_trace network address (RetryDelay d) k)%list /\
       (forall j, (j < k)%nat ->
          is_nil_err (snd (NetDial e (attempts w + j) network address)) = false) /\
       (is_nil_err err = true \/ Z.of_nat k = RetryTimes d - 1)).
Proof.
  intros Ht Hc Hh Hg Hun. unfold Dial.
  pose proof (DirectProps.init_world e d w) as [Ht0 Hn0].
  pose proof (init_heap e d w l c Hh) as Hh0.
  destruct (init e d w) as [d0 w0]. cbn in Ht0, Hn0, Hh0.
  rewrite Ht, Hc, Hh0, Hn0, Hg.
  assert (resolve e d l c1 address (store l c1 w0)
          = (inr address, {| now := now w0; heap := <[l := c1]> (heap w0);
                             trace := trace w0 ++ lookup_events e address |})) as Hres.
  { unfold resolve, lookup_events.
    destruct Hun as [Hs | (host & port & Hs & [Hk | Hk])]; rewrite Hs.
    - cbn. now rewrite app_nil_r.
    - now rewrite Hk.
    - now rewrite Hk. }
  assert (Forall (fun ev => is_lookup ev = true) (lookup_events e address)) as Hpre.
  { unfold lookup_events. destruct (SplitHostPort e address) as [[h p]|]; repeat constructor. }
  assert (connects (lookup_events e address) = []) as Hcon.
  { unfold lookup_events. destruct (SplitHostPort e address) as [[h p]|]; [|reflexivity].
    unfold connects. now rewrite filter_cons_False by discriminate. }
  rewrite Hres.
  set (w1 := {| now := now w0; heap := <[l := c1]> (heap w0);
                trace := trace w0 ++ lookup_events e address |}).
  assert (attempts w1 = attempts w) as Ha.
  { unfold attempts, w1. cbn. now rewrite connects_app, Hcon, app_nil_r, Ht0. }
  assert (<[l := c1]> (heap w0) !! l = Some c1) as Hl
    by (apply list_lookup_insert_eq; eauto using lookup_lt_Some).
  unfold dial_loop.
  destruct (Z.to_nat (RetryTimes d)) as [|n] eqn:En.
  - cbn [retry]. exists None, None, (lookup_events e address). cbn. rewrite Ht0.
    split; [reflexivity|]. split; [reflexivity|]. split; [|split; [exact Hl|split]].
    + eapply Forall_impl; [exact Hpre|]. cbn. auto.
    + auto.
    + intros Hpos. lia.
  - destruct (retry_result e d network address n 0 (None, None) w1)
      as (k & w' & Hk & Hr & Htr & Hhp & Hfail & Hlast); [lia|].
    rewrite Hr. rewrite Ha in *.
    destruct (NetDial e (attempts w + k) network address) as [conn err] eqn:End.
    exists conn, err, (lookup_events e address
                       ++ attempts_trace network address (RetryDelay d) k)%list.
    cbn [fst snd]. rewrite Htr, Hhp. unfold w1. cbn [trace heap]. rewrite Ht0.
    split; [reflexivity|]. split; [now rewrite app_assoc|].
    split; [|split; [exact Hl|split]].
    + apply Forall_app. split.
      * eapply Forall_impl; [exact Hpre|]. cbn. auto.
      * eapply Forall_impl; [apply attempts_trace_events|]. cbn. intuition.
    + intros Hle. lia.
    + intros _. exists k. split; [lia|]. split; [now rewrite End|]. split; [reflexivity|].
      split; [exact Hfail|]. cbn in Hlast. destruct Hlast as [Hn | ->]; [now left | right; lia].
Qed.

(** With a nil [dnsCache] in the struct, a dial on tcp, tcp4 or tcp6
    panics at the cache lookup, before any resolution or connect. *)
Theorem Dial_without_cache_panics (e : Env) (d : Dialer) network address (w : World C) :
  is_tcp network = true ->
  dnsCache d = None ->
  exists msg,
    fst (Dial e d network address w) = Panic msg /\
    trace (snd (Dial e d network address w)) = trace w.
Proof. apply DirectProps.Dial_nil_cache. Qed.

End WithCache.

Lemma Dial_other_network_witness :
  is_tcp "udp" = false /\
  exists conn err evs,
    fst (Dial MoreSamples.env_down MoreSamples.three_tries "udp" "example.com:53" Samples.world0)
    = Return conn err /\
    trace (snd (Dial MoreSamples.env_down MoreSamples.three_tries "udp" "example.com:53"
                     Samples.world0))
    = ([] ++ evs)%list /\
    lookups evs = [].
Proof.
  split; [reflexivity|].
  destruct (Dial_other_network MoreSamples.env_down MoreSamples.three_tries "udp"
              "example.com:53" Samples.world0 eq_refl)
    as (conn & err & evs & Hr & Ht & _ & Hl & _).
  exists conn, err, evs. auto.
Defined.

Lemma Dial_retries_until_success_witness :
  is_tcp "udp" = false /\
  Z.of_nat 1 < RetryTimes MoreSamples.three_tries /\
  fst (Dial Samples.env MoreSamples.three_tries "udp" "example.com:53" Samples.world0)
  = Return (Some {| conn_network := "udp"; conn_address := "example.com:53" |}) None /\
  trace (snd (Dial Samples.env MoreSamples.three_tries "udp" "example.com:53" Samples.world0))
  = [EvConnect "udp" "example.com:53"; EvSleep (50 * Millisecond);
     EvConnect "udp" "example.com:53"].
Proof.
  split; [reflexivity|]. split; [reflexivity|].
  apply (Dial_retries_until_success Samples.env MoreSamples.three_tries "udp"
           "example.com:53" Samples.world0
           {| conn_network := "udp"; conn_address := "example.com:53" |} 1).
  - reflexivity.
  - reflexivity.
  - intros j Hj. assert (j = 0%nat) as -> by lia. reflexivity.
  - reflexivity.
Defined.

Lemma Dial_retries_exhausted_witness :
  is_tcp "udp" = false /\
  RetryTimes MoreSamples.three_tries = Z.of_nat 3 /\
  fst (Dial MoreSamples.env_down MoreSamples.three_tries "udp" "example.com:53" Samples.world0)
  = Return None (Some (NetError "network is unreachable")) /\
  trace (snd (Dial MoreSamples.env_down MoreSamples.three_tries "udp" "example.com:53"
                   Samples.world0))
  = [EvConnect "udp" "example.com:53"; EvSleep (50 * Millisecond);
     EvConnect "udp" "example.com:53"; EvSleep (50 * Millisecond);
     EvConnect "udp" "example.com:53"].
Proof.
  split; [reflexivity|]. split; [reflexivity|].
  apply (Dial_retries_exhausted MoreSamples.env_down MoreSamples.three_tries "udp"
           "example.com:53" Samples.world0 2).
  - reflexivity.
  - reflexivity.
  - intros j Hj. reflexivity.
Defined.

Lemma Dial_cache_hit_witness :
  is_tcp "tcp" = true /\
  dnsCache Samples.populated = Some 0%nat /\
  cache_Get ({[ "example.com:80" := ("10.0.0.7:80", Hour) ]} : ExpiryMap) 0 "example.com:80"
  = (Some "10.0.0.7:80", {[ "example.com:80" := ("10.0.0.7:80", Hour) ]}) /\
  exists conn err evs,
    fst (Dial Samples.env Samples.populated "tcp" "example.com:80" MoreSamples.world_cached)
    = Return conn err /\
    trace (snd (Dial Samples.env Samples.populated "tcp" "example.com:80"
                     MoreSamples.world_cached))
    = ([] ++ evs)%list /\
    Forall (fun ev => ev = EvConnect "tcp" "10.0.0.7:80" \/
                      ev = EvSleep (RetryDelay Samples.populated)) evs.
Proof.
  assert (cache_Get ({[ "example.com:80" := ("10.0.0.7:80", Hour) ]} : ExpiryMap) 0
                    "example.com:80"
          = (Some "10.0.0.7:80", {[ "example.com:80" := ("10.0.0.7:80", Hour) ]})) as Hg
    by (vm_compute; reflexivity).
  split; [reflexivity|]. split; [reflexivity|]. split; [exact Hg|].
  destruct (Dial_cache_hit Samples.env Samples.populated "tcp" "example.com:80"
              MoreSamples.world_cached 0 _ _ "10.0.0.7:80" eq_refl eq_refl eq_refl Hg)
    as (conn & err & evs & Hr & Ht & Hf & _).
  exists conn, err, evs. auto.
Defined.

Lemma Dial_miss_caches_witness :
  is_tcp "tcp" = true /\
  SplitHostPort Samples.env "example.com:80" = Some ("example.com", "80") /\
  LookupIP Samples.env "example.com" = Some ["93.184.216.34"] /\
  heap (snd (Dial Samples.env Samples.populated "tcp" "example.com:80" Samples.world1)) !! 0%nat
  = Some (cache_Set (∅ : ExpiryMap) 0 "example.com:80" (JoinHostPort "93.184.216.34" "80")
                    (0 + DNSCacheExpires Samples.populated)).
Proof.
  split; [reflexivity|]. split; [reflexivity|]. split; [reflexivity|].
  destruct (Dial_miss_caches Samples.env Samples.populated "tcp" "example.com:80"
              Samples.world1 0 (∅ : ExpiryMap) (∅ : ExpiryMap)
              "example.com" "80" "93.184.216.34" [])
    as (conn & err & evs & _ & _ & _ & Hh).
  - reflexivity.
  - reflexivity.
  - reflexivity.
  - reflexivity.
  - reflexivity.
  - reflexivity.
  - intros s Hs. injection Hs as <-. intros Hin.
    apply elem_of_singleton in Hin. discriminate.
  - exact Hh.
Defined.

(** The address nowhere does not split: the first attempt on it times
    out, the second connects, and the connection to nowhere is what
    [Dial] returns. *)
Lemma Dial_unresolved_falls_through_witness :
  is_tcp "tcp" = true /\
  SplitHostPort Samples.env "nowhere" = None /\
  fst (Dial Samples.env Samples.populated "tcp" "nowhere" Samples.world1)
  = Return (Some {| conn_network := "tcp"; conn_address := "nowhere" |}) None /\
  trace (snd (Dial Samples.env Samples.populated "tcp" "nowhere" Samples.world1))
  = [EvConnect "tcp" "nowhere"; EvSleep (100 * Millisecond); EvConnect "tcp" "nowhere"] /\
  heap (snd (Dial Samples.env Samples.populated "tcp" "nowhere" Samples.world1)) !! 0%nat
  = Some (∅ : ExpiryMap).
Proof.
  split; [reflexivity|]. split; [reflexivity|].
  assert (cache_Get (∅ : ExpiryMap) (now Samples.world1) "nowhere" = (None, ∅)) as Hg
    by (vm_compute; reflexivity).
  destruct (Dial_unresolved_falls_through Samples.env Samples.populated "tcp" "nowhere"
              Samples.world1 0 (∅ : ExpiryMap) (∅ : ExpiryMap)
              eq_refl eq_refl eq_refl Hg (or_introl eq_refl))
    as (conn & err & evs & Hr & Ht & _ & Hh & _ & Hpos).
  destruct (Hpos eq_refl) as (k & Hk & Hres & Hevs & Hfail & Hlast).
  assert (k = 1%nat) as ->.
  { destruct k as [|[|k]]; [exfalso | reflexivity | cbn in Hk; lia].
    injection Hres as -> ->. destruct Hlast as [Hn | Hn]; discriminate. }
  injection Hres as -> ->. subst evs.
  split; [exact Hr|]. split; [exact Ht | exact Hh].
Defined.

Lemma Dial_rejects_loopback_witness :
  is_tcp "tcp" = true /\
  LookupIP Samples.env "localhost" = Some ["::1"] /\
  loAddrs Samples.populated = Some {[ "::1" ]} /\
  exists msg,
    fst (Dial Samples.env Samples.populated "tcp" "localhost:80" Samples.world1)
    = Return None (Some (InvalidAddrError msg)) /\
    connects (trace (snd (Dial Samples.env Samples.populated "tcp" "localhost:80"
                               Samples.world1)))
    = connects (trace Samples.world1).
Proof.
  split; [reflexivity|]. split; [reflexivity|]. split; [reflexivity|].
  apply (DirectProps.Dial_rejects_loopback Samples.env Samples.populated "tcp" "localhost:80"
           Samples.world1 0 (∅ : ExpiryMap) (∅ : ExpiryMap) "localhost" "80" "::1" []
           {[ "::1" ]}); try reflexivity.
  all: now apply elem_of_singleton.
Defined.

Lemma Dial_without_cache_panics_witness :
  is_tcp "tcp4" = true /\
  dnsCache MoreSamples.three_tries = None /\
  exists msg,
    fst (Dial Samples.env MoreSamples.three_tries "tcp4" "example.com:80" Samples.world0)
    = Panic msg /\
    trace (snd (Dial Samples.env MoreSamples.three_tries "tcp4" "example.com:80" Samples.world0))
    = trace Samples.world0.
Proof.
  split; [reflexivity|]. split; [reflexivity|].
  exact (Dial_without_cache_panics Samples.env MoreSamples.three_tries "tcp4" "example.com:80"
           Samples.world0 eq_refl eq_refl).
Defined.

Lemma Dial_no_attempt_witness :
  is_tcp "unix" = false /\
  RetryTimes zero_Dialer <= 0 /\
  fst (Dial Samples.env zero_Dialer "unix" "/tmp/sock" Samples.world0) = Return None None /\
  trace (snd (Dial Samples.env zero_Dialer "unix" "/tmp/sock" Samples.world0))
  = trace Samples.world0.
Proof.
  assert (RetryTimes zero_Dialer <= 0) as Hn by (cbn; lia).
  split; [reflexivity|]. split; [exact Hn|].
  exact (DirectProps.Dial_no_attempt Samples.env zero_Dialer "unix" "/tmp/sock"
           Samples.world0 eq_refl Hn).
Defined.

End DirectMore.

(** ** More on the upstream-fetch filters *)

Module FetchMore.
Import GoLib Fetch.

(** *** Construction *)

Lemma vps_build_ok parse l :
  forall acc out,
    Vps.build_servers parse l acc = inl out ->
    exists out', out = (acc ++ out')%list /\ Forall2 (Vps.built parse) l out'.
Proof.
  induction l as [|fs rest IH]; intros acc out; cbn [Vps.build_servers].
  - intros [= <-]. exists []. rewrite app_nil_r. split; [reflexivity | constructor].
  - destruct (parse (Vps.cfg_URL fs)) as [u|err] eqn:Hp; [|discriminate].
    intros Hb. destruct (IH _ _ Hb) as (out' & -> & Hf).
    eexists (_ :: out'). split; [now rewrite <- app_assoc|].
    constructor; [|exact Hf]. unfold Vps.built. cbn. auto.
Qed.

Lemma vps_build_fail parse l :
  forall acc err,
    Vps.build_servers parse l acc = inr err ->
    exists pre fs post,
      l = (pre ++ fs :: post)%list /\
      Forall (fun c => exists u, parse (Vps.cfg_URL c) = inl u) pre /\
      parse (Vps.cfg_URL fs) = inr err.
Proof.
  induction l as [|fs rest IH]; intros acc err; cbn [Vps.build_servers]; [discriminate|].
  destruct (parse (Vps.cfg_URL fs)) as [u|err'] eqn:Hp.
  - intros Hb. destruct (IH _ _ Hb) as (pre & fs' & post & -> & Hpre & Hbad).
    exists (fs :: pre), fs', post. split; [reflexivity|]. split; [|exact Hbad].
    constructor; eauto.
  - intros [= <-]. exists [], fs, rest. split; [reflexivity|]. split; [constructor | exact Hp].
Qed.

Lemma php_build_ok parse l :
  forall acc out,
    Php.build_servers parse l acc = inl out ->
    exists out', out = (acc ++ out')%list /\ Forall2 (Php.built parse) l out'.
Proof.
  induction l as [|fs rest IH]; intros acc out; cbn [Php.build_servers].
  - intros [= <-]. exists []. rewrite app_nil_r. split; [reflexivity | constructor].
  - destruct (parse (Php.cfg_URL fs)) as [u|err] eqn:Hp; [|discriminate].
    intros Hb. destruct (IH _ _ Hb) as (out' & -> & Hf).
    eexists (_ :: out'). split; [now rewrite <- app_assoc|].
    constructor; [|exact Hf]. unfold Php.built. cbn. auto.
Qed.

Lemma php_build_fail parse l :
  forall acc err,
    Php.build_servers parse l acc = inr err ->
    exists pre fs post,
      l = (pre ++ fs :: post)%list /\
      Forall (fun c => exists u, parse (Php.cfg_URL c) = inl u) pre /\
      parse (Php.cfg_URL fs) = inr err.
Proof.
  induction l as [|fs rest IH]; intros acc err; cbn [Php.build_servers]; [discriminate|].
  destruct (parse (Php.cfg_URL fs)) as [u|err'] eqn:Hp.
  - intros Hb. destruct (IH _ _ Hb) as (pre & fs' & post & -> & Hpre & Hbad).
    exists (fs :: pre), fs', post. split; [reflexivity|]. split; [|exact Hbad].
    constructor; eauto.
  - intros [= <-]. exists [], fs, rest. split; [reflexivity|]. split; [constructor | exact Hp].
Qed.

(** [NewFilter] of the vps filter either returns a filter whose fetch
    servers are those of the configuration, one for one and in the
    same order, each with its URL parsed and its credentials copied,
    or returns the parse error of the first URL that does not parse. *)
Theorem vps_NewFilter_servers (parse : string -> string + string)
        (matcher : list string -> string -> bool)
        (rt : Vps.FetchServer -> Request -> Response + string) (config : Vps.Config) :
  match Vps.NewFilter parse matcher rt config with
  | inl f =>
      Forall2 (Vps.built parse) (Vps.cfg_FetchServers config) (Vps.FetchServers f) /\
      length (Vps.FetchServers f) = length (Vps.cfg_FetchServers config) /\
      Vps.Sites f = matcher (Vps.cfg_Sites config)
  | inr err =>
      exists pre fs post,
        Vps.cfg_FetchServers config = (pre ++ fs :: post)%list /\
        Forall (fun c => exists u, parse (Vps.cfg_URL c) = inl u) pre /\
        parse (Vps.cfg_URL fs) = inr err
  end.
Proof.
  unfold Vps.NewFilter.
  destruct (Vps.build_servers parse (Vps.cfg_FetchServers config) []) as [out|err] eqn:Hb.
  - destruct (vps_build_ok _ _ _ _ Hb) as (out' & -> & Hf). cbn.
    split; [exact Hf|]. split; [|reflexivity].
    symmetry. eapply Forall2_length. exact Hf.
  - eapply vps_build_fail. exact Hb.
Qed.

(** [NewFilter] of the php filter fails with the error of the
    transport filter before it looks at any URL, and with a typed
    error when that filter is no round-trip filter; otherwise it
    behaves on the fetch servers as the vps one does and keeps the
    transport's [RoundTrip]. *)
Theorem php_NewFilter_servers (lookup : string -> Php.AnyFilter + string)
        (parse : string -> string + string)
        (matcher : list string -> string -> bool)
        (encode : Php.FetchServer -> Request -> Request + string)
        (decode : Php.FetchServer -> Response -> option Response * option string)
        (config : Php.Config) :
  match lookup (Php.cfg_Transport config) with
  | inr err => Php.NewFilter lookup parse matcher encode decode config = inr err
  | inl f1 =>
      match Php.as_RoundTripFilter f1 with
      | None =>
          Php.NewFilter lookup parse matcher encode decode config
          = inr (Php.any_name f1 +:+ " was not a filters.RoundTripFilter")
      | Some f2 =>
          match Php.NewFilter lookup parse matcher encode decode config with
          | inl f =>
              Forall2 (Php.built parse) (Php.cfg_FetchServers config) (Php.FetchServers f) /\
              length (Php.FetchServers f) = length (Php.cfg_FetchServers config) /\
              Php.Transport f = f2 /\
              Php.Sites f = matcher (Php.cfg_Sites config)
          | inr err =>
              exists pre fs post,
                Php.cfg_FetchServers config = (pre ++ fs :: post)%list /\
                Forall (fun c => exists u, parse (Php.cfg_URL c) = inl u) pre /\
                parse (Php.cfg_URL fs) = inr err
          end
      end
  end.
Proof.
  unfold Php.NewFilter.
  destruct (lookup (Php.cfg_Transport config)) as [f1|err]; [|reflexivity].
  destruct (Php.as_RoundTripFilter f1) as [f2|]; [|reflexivity].
  destruct (Php.build_servers parse (Php.cfg_FetchServers config) []) as [out|err] eqn:Hb.
  - destruct (php_build_ok _ _ _ _ Hb) as (out' & -> & Hf). cbn.
    split; [exact Hf|]. split; [|auto].
    symmetry. eapply Forall2_length. exact Hf.
  - eapply php_build_fail. exact Hb.
Qed.

(** *** RoundTrip *)

(** What [forward] of the php filter does on a panic: the request was
    encoded and the transport returned nil, nil. *)
Lemma php_forward_panics f fs req :
  (exists msg, Php.forward f fs req = Panic msg) <->
  exists req1, Php.encodeRequest f fs req = inl req1 /\ Php.Transport f req1 = (None, None).
Proof.
  unfold Php.forward. split.
  - intros [msg Hp]. destruct (Php.encodeRequest f fs req) as [req1|err]; [|discriminate].
    exists req1. split; [reflexivity|].
    destruct (Php.Transport f req1) as [[res|] [err|]]; try discriminate; [|reflexivity].
    now destruct (Php.decodeResponse f fs res).
  - intros (req1 & -> & ->). eauto.
Qed.

(** [RoundTrip] of the vps filter, over fetch servers whose own
    [RoundTrip] returns a response or an error, panics exactly when the
    host matches the site list and the list of fetch servers is empty.  [RoundTrip]
    of the php filter panics exactly when the host matches the site
    list and either the list of fetch servers is empty, or the request
    was encoded for the server chosen and the transport filter returned
    neither a response nor an error: the log line then reads the status
    code of a nil response. *)
Theorem RoundTrip_panics_iff (vf : Vps.Filter) (pf : Php.Filter) (req : Request) (raw : Z) :
  ((exists msg, Vps.RoundTrip vf raw req = Panic msg)
   <-> Vps.Sites vf (Host req) = true /\ Vps.FetchServers vf = []) /\
  ((exists msg, Php.RoundTrip pf raw req = Panic msg)
   <-> Php.Sites pf (Host req) = true /\
       (Php.FetchServers pf = [] \/
        exists i fs req1,
          pick req (Z.of_nat (length (Php.FetchServers pf))) raw = Some i /\
          index (Php.FetchServers pf) i = Some fs /\
          Php.encodeRequest pf fs req = inl req1 /\
          Php.Transport pf req1 = (None, None))).
Proof.
  split; split.
  - intros [msg Hp]. destruct (Vps.Sites vf (Host req)) eqn:Hs.
    + split; [reflexivity|]. destruct (Vps.FetchServers vf) as [|s0 rest] eqn:Hl; [reflexivity|].
      exfalso.
      assert (0 < Z.of_nat (length (Vps.FetchServers vf))) as Hn by (rewrite Hl; cbn; lia).
      destruct (FetchProps.pick_some req _ raw Hn) as [i Hi].
      destruct (FetchProps.vps_RoundTrip_forward vf raw req i Hs
                  (FetchProps.pick_in_range _ _ _ _ Hn Hi) Hi) as (fs & _ & Hr).
      rewrite Hr in Hp. now apply FetchProps.forward_no_panic_vps in Hp.
    + unfold Vps.RoundTrip in Hp. rewrite Hs in Hp. discriminate.
  - intros [Hs He]. now apply FetchProps.vps_empty_panics.
  - intros [msg Hp]. destruct (Php.Sites pf (Host req)) eqn:Hs.
    + split; [reflexivity|].
      destruct (Php.FetchServers pf) as [|s0 rest] eqn:Hl; [now left | right].
      rewrite <- Hl in *.
      assert (0 < Z.of_nat (length (Php.FetchServers pf))) as Hn by (rewrite Hl; cbn; lia).
      destruct (FetchProps.pick_some req _ raw Hn) as [i Hi].
      destruct (FetchProps.index_in_range (Php.FetchServers pf) i
                  (FetchProps.pick_in_range _ _ _ _ Hn Hi)) as (fs & _ & Hx).
      unfold Php.RoundTrip in Hp. rewrite Hs, Hi, Hx in Hp. cbn [negb] in Hp.
      destruct (proj1 (php_forward_panics pf fs req)) as (req1 & He & Ht); [eauto|].
      exists i, fs, req1. auto.
    + unfold Php.RoundTrip in Hp. rewrite Hs in Hp. discriminate.
  - intros [Hs [He | (i & fs & req1 & Hi & Hx & He & Ht)]].
    + now apply FetchProps.php_empty_panics.
    + unfold Php.RoundTrip. rewrite Hs, Hi, Hx. cbn [negb].
      apply php_forward_panics. eauto.
Qed.

(** With three fetch servers and a transport filter that passes the
    request on, [RoundTrip] of the php filter panics. *)
Lemma RoundTrip_panics_iff_witness :
  Php.FetchServers MoreSamples.passing_php <> [] /\
  Php.RoundTrip MoreSamples.passing_php 7 (Samples.get "/page.html")
    = Panic "invalid memory address or nil pointer dereference" /\
  exists msg, Php.RoundTrip MoreSamples.passing_php 7 (Samples.get "/page.html") = Panic msg.
Proof.
  split; [discriminate|]. split; [reflexivity|].
  apply (RoundTrip_panics_iff Samples.three_vps MoreSamples.passing_php
           (Samples.get "/page.html") 7).
  split; [reflexivity|]. right.
  exists 0, (Samples.php_server "a"),
    {| Host := "a"; URL_Host := "a"; URL_Path := "/"; Method := "POST" |}.
  repeat split; reflexivity.
Defined.

(** A configuration without fetch servers is accepted by [NewFilter]
    of the vps filter, and the filter it returns panics on every
    request whose host matches the site list. *)
Theorem vps_NewFilter_accepts_no_servers (parse : string -> string + string)
        (matcher : list string -> string -> bool)
        (rt : Vps.FetchServer -> Request -> Response + string) (config : Vps.Config) :
  Vps.cfg_FetchServers config = [] ->
  exists f,
    Vps.NewFilter parse matcher rt config = inl f /\
    forall raw req,
      matcher (Vps.cfg_Sites config) (Host req) = true ->
      exists msg, Vps.RoundTrip f raw req = Panic msg.
Proof.
  intros He. unfold Vps.NewFilter. rewrite He. cbn. eexists. split; [reflexivity|].
  intros raw req Hm. apply FetchProps.vps_empty_panics; [exact Hm | reflexivity].
Qed.

Lemma vps_NewFilter_accepts_no_servers_witness :
  Vps.cfg_FetchServers (MoreSamples.vps_config []) = [] /\
  exists f,
    Vps.NewFilter MoreSamples.url_Parse MoreSamples.NewHostMatcher
                  (Vps.fetch Samples.three_vps) (MoreSamples.vps_config []) = inl f /\
    exists msg, Vps.RoundTrip f 7 (Samples.get "/page.html") = Panic msg.
Proof.
  split; [reflexivity|].
  destruct (vps_NewFilter_accepts_no_servers MoreSamples.url_Parse MoreSamples.NewHostMatcher
              (Vps.fetch Samples.three_vps) (MoreSamples.vps_config []) eq_refl)
    as (f & Hf & Hp).
  exists f. split; [exact Hf|]. apply Hp. reflexivity.
Defined.

(** *** The cases of the selection left *)

Lemma pick_noext req n raw :
  Ext (URL_Path req) = "" ->
  pick req n raw =
  if Contains (Base (URL_Path req)) "play" || Contains (Base (URL_Path req)) "video"
  then Intn raw n else Some 0.
Proof. intros He. unfold pick. rewrite He. reflexivity. Qed.

Lemma pick_static req n raw :
  Ext (URL_Path req) <> "" -> is_static req = true -> pick req n raw = Intn raw n.
Proof.
  intros He Hs. unfold pick. destruct (is_media_ext _); [reflexivity|].
  destruct (String.eqb_spec (Ext (URL_Path req)) ""); [contradiction|].
  now rewrite Hs.
Qed.

(** For a request whose host matches the site list and non-empty
    lists of fetch servers, in both filters: a path without extension
    goes to the server at the drawn index when its last element
    contains play or video, and to the first server otherwise, whatever
    the host; a path with an extension whose host or path matches one
    of the static patterns goes to the server at the drawn index. *)
Theorem selection_other_cases (vf : Vps.Filter) (pf : Php.Filter) (req : Request) (raw : Z) :
  Vps.Sites vf (Host req) = true ->
  Php.Sites pf (Host req) = true ->
  Vps.FetchServers vf <> [] ->
  Php.FetchServers pf <> [] ->
  (Ext (URL_Path req) = "" ->
   Contains (Base (URL_Path req)) "play" || Contains (Base (URL_Path req)) "video" = true ->
   Vps.served_at vf raw req (raw mod Z.of_nat (length (Vps.FetchServers vf))) /\
   Php.served_at pf raw req (raw mod Z.of_nat (length (Php.FetchServers pf)))) /\
  (Ext (URL_Path req) = "" ->
   Contains (Base (URL_Path req)) "play" || Contains (Base (URL_Path req)) "video" = false ->
   Vps.served_at vf raw req 0 /\ Php.served_at pf raw req 0) /\
  (Ext (URL_Path req) <> "" ->
   is_static req = true ->
   Vps.served_at vf raw req (raw mod Z.of_nat (length (Vps.FetchServers vf))) /\
   Php.served_at pf raw req (raw mod Z.of_nat (length (Php.FetchServers pf)))).
Proof.
  intros Hv Hp Hnv Hnp.
  apply FetchProps.length_pos in Hnv. apply FetchProps.length_pos in Hnp.
  assert (forall n, 0 < n -> 0 <= raw mod n < n) as Hm
    by (intros; apply Z.mod_pos_bound; lia).
  split; [|split].
  - intros He Hc. split.
    + apply FetchProps.vps_RoundTrip_forward; [assumption | auto |].
      rewrite pick_noext, Hc by assumption. now apply FetchProps.Intn_pos.
    + apply FetchProps.php_RoundTrip_forward; [assumption | auto |].
      rewrite pick_noext, Hc by assumption. now apply FetchProps.Intn_pos.
  - intros He Hc. split.
    + apply FetchProps.vps_RoundTrip_forward; [assumption | lia |].
      now rewrite pick_noext, Hc.
    + apply FetchProps.php_RoundTrip_forward; [assumption | lia |].
      now rewrite pick_noext, Hc.
  - intros He Hs. split.
    + apply FetchProps.vps_RoundTrip_forward; [assumption | auto |].
      rewrite pick_static by assumption. now apply FetchProps.Intn_pos.
    + apply FetchProps.php_RoundTrip_forward; [assumption | auto |].
      rewrite pick_static by assumption. now apply FetchProps.Intn_pos.
Qed.

Lemma selection_other_cases_witness :
  Vps.Sites Samples.three_vps (Host (Samples.get "/watch/play")) = true /\
  Php.Sites Samples.three_php (Host (Samples.get "/watch/play")) = true /\
  Vps.FetchServers Samples.three_vps <> [] /\
  Php.FetchServers Samples.three_php <> [] /\
  Vps.served_at Samples.three_vps 7 (Samples.get "/watch/play") 1 /\
  Php.served_at Samples.three_php 7 (Samples.get "/index") 0 /\
  Vps.served_at Samples.three_vps 8 (Samples.get "/static/app.css") 2.
Proof.
  assert (Vps.FetchServers Samples.three_vps <> []) as Hv by discriminate.
  assert (Php.FetchServers Samples.three_php <> []) as Hp by discriminate.
  pose proof (selection_other_cases Samples.three_vps Samples.three_php
                (Samples.get "/watch/play") 7 eq_refl eq_refl Hv Hp) as (Hplay & _ & _).
  pose proof (selection_other_cases Samples.three_vps Samples.three_php
                (Samples.get "/index") 7 eq_refl eq_refl Hv Hp) as (_ & Hplain & _).
  pose proof (selection_other_cases Samples.three_vps Samples.three_php
                (Samples.get "/static/app.css") 8 eq_refl eq_refl Hv Hp) as (_ & _ & Hstatic).
  split; [reflexivity|]. split; [reflexivity|]. split; [exact Hv|]. split; [exact Hp|].
  split; [exact (proj1 (Hplay eq_refl eq_refl))|].
  split; [exact (proj2 (Hplain eq_refl eq_refl))|].
  exact (proj1 (Hstatic ltac:(discriminate) eq_refl)).
Defined.

End FetchMore.

(** ** The direct filter *)

Module DirectFilterProps.
Import GoLib DirectFilter.

Local Set Warnings "-clear-no-such-hyp".

(** For a method other than CONNECT and PRI, [RoundTrip] never returns
    an error.  A response of the transport is passed on unchanged; the
    loopback error marks the context hijacked after the local file
    server has answered; any other error of the transport becomes a 502
    response that is closed after use and whose body is the text of the
    error, with the matching content length. *)
Theorem default_method_never_errors (t : Transport) (ctx : Context) (req : Request) :
  Method req <> "CONNECT" ->
  Method req <> "PRI" ->
  err_of (RoundTrip t ctx req) = None /\
  match transport_RoundTrip t req with
  | inl resp =>
      RoundTrip t ctx req = ((ctx, Some resp, None), [EvTransport req])
  | inr ErrLoopbackAddr =>
      resp_of (RoundTrip t ctx req) = None /\
      hijacked (ctx_of (RoundTrip t ctx req)) = true /\
      rw (ctx_of (RoundTrip t ctx req)) = rw ctx /\
      snd (RoundTrip t ctx req) = [EvTransport req; EvServeFile req]
  | inr (OtherError data) =>
      ctx_of (RoundTrip t ctx req) = ctx /\
      snd (RoundTrip t ctx req) = [EvTransport req] /\
      exists resp,
        resp_of (RoundTrip t ctx req) = Some resp /\
        StatusCode resp = 502 /\
        Body resp = data /\
        ContentLength resp = Z.of_nat (String.length data) /\
        Close resp = true
  end.
Proof.
  intros Hc Hp. unfold RoundTrip.
  destruct (String.eqb_spec (Method req) "CONNECT"); [contradiction|].
  destruct (String.eqb_spec (Method req) "PRI"); [contradiction|].
  destruct (transport_RoundTrip t req) as [resp|[|data]]; cbn.
  - auto.
  - auto.
  - split; [reflexivity|]. split; [reflexivity|]. split; [reflexivity|].
    eexists. split; [reflexivity|]. cbn. auto.
Qed.

Lemma default_method_never_errors_witness :
  Method (MoreSamples.request "GET" "localhost:8080") <> "CONNECT" /\
  Method (MoreSamples.request "GET" "localhost:8080") <> "PRI" /\
  err_of (RoundTrip MoreSamples.transport MoreSamples.full_writer
            (MoreSamples.request "GET" "localhost:8080")) = None /\
  exists resp,
    resp_of (RoundTrip MoreSamples.transport MoreSamples.full_writer
               (MoreSamples.request "GET" "localhost:8080")) = Some resp /\
    StatusCode resp = 502 /\
    Body resp = "connection refused".
Proof.
  assert (Method (MoreSamples.request "GET" "localhost:8080") <> "CONNECT") as H1 by discriminate.
  assert (Method (MoreSamples.request "GET" "localhost:8080") <> "PRI") as H2 by discriminate.
  split; [exact H1|]. split; [exact H2|].
  destruct (default_method_never_errors MoreSamples.transport MoreSamples.full_writer
              (MoreSamples.request "GET" "localhost:8080") H1 H2)
    as (He & _ & _ & resp & Hr & Hs & Hb & _).
  split; [exact He|]. exists resp. auto.
Defined.

(** For CONNECT, [RoundTrip] dials the host first and never returns a
    response.  It returns no error exactly when the dial succeeds, the
    writer is a hijacker and a flusher, and the hijack succeeds: then
    the context is marked hijacked, both directions are relayed and the
    client connection is closed at the end.  In every other case the
    context is unchanged and nothing is relayed.  The 200 status is
    written and flushed as soon as the dial succeeds and the writer has
    both capabilities, so also when the hijack itself then fails. *)
Theorem CONNECT_tunnel (t : Transport) (ctx : Context) (req : Request) :
  Method req = "CONNECT" ->
  resp_of (RoundTrip t ctx req) = None /\
  head (snd (RoundTrip t ctx req)) = Some (EvDial "tcp" (Host req)) /\
  (err_of (RoundTrip t ctx req) = None
   <-> tunnel_ready t ctx req /\ Hijack_err (rw ctx) = None) /\
  (err_of (RoundTrip t ctx req) = None ->
   ctx_of (RoundTrip t ctx req) = SetHijacked ctx true /\
   snd (RoundTrip t ctx req)
   = [EvDial "tcp" (Host req); EvWriteHeader 200; EvFlush; EvHijack;
      EvGoIoCopy Remote Local; EvIoCopy Local Remote; EvCloseLocal]) /\
  (err_of (RoundTrip t ctx req) <> None ->
   ctx_of (RoundTrip t ctx req) = ctx /\
   (forall a b, EvGoIoCopy a b ∉ snd (RoundTrip t ctx req)) /\
   (forall a b, EvIoCopy a b ∉ snd (RoundTrip t ctx req))) /\
  (EvWriteHeader 200 ∈ snd (RoundTrip t ctx req) <-> tunnel_ready t ctx req).
Proof.
  intros Hm. unfold RoundTrip, tunnel_ready. rewrite Hm.
  change ("CONNECT" =? "CONNECT")%string with true. cbn iota.
  destruct (Dial t "tcp" (Host req)) as [rconn|e] eqn:Hd;
    [destruct (is_Hijacker (rw ctx)) eqn:Hh;
     [destruct (is_Flusher (rw ctx)) eqn:Hf;
      [destruct (Hijack_err (rw ctx)) as [he|] eqn:Hj|]|]|];
    unfold err_of, ctx_of, resp_of; cbn [negb fst snd head];
    (split; [reflexivity|]); (split; [reflexivity|]);
    repeat setoid_rewrite elem_of_cons; repeat setoid_rewrite elem_of_nil;
    naive_solver.
Qed.

Lemma CONNECT_tunnel_witness :
  Method (MoreSamples.request "CONNECT" "example.com:443") = "CONNECT" /\
  err_of (RoundTrip MoreSamples.transport MoreSamples.full_writer
            (MoreSamples.request "CONNECT" "example.com:443")) = None /\
  hijacked (ctx_of (RoundTrip MoreSamples.transport MoreSamples.full_writer
                      (MoreSamples.request "CONNECT" "example.com:443"))) = true.
Proof.
  split; [reflexivity|].
  destruct (CONNECT_tunnel MoreSamples.transport MoreSamples.full_writer
              (MoreSamples.request "CONNECT" "example.com:443") eq_refl)
    as (_ & _ & Hiff & Hok & _).
  assert (err_of (RoundTrip MoreSamples.transport MoreSamples.full_writer
                    (MoreSamples.request "CONNECT" "example.com:443")) = None) as He.
  { apply Hiff. split; [|reflexivity]. split; [|split; reflexivity].
    exists 7%nat. reflexivity. }
  split; [exact He|]. destruct (Hok He) as [Hc _]. now rewrite Hc.
Defined.

End DirectFilterProps.

(** ** More on the blocklist updater *)

Module AutoproxyMore.
Import GoLib Autoproxy.

Section WithLibraries.
Variable time_Parse : string -> string -> option Time.
Variable base64_decode : string -> option string.

Local Abbreviation stale := (stale time_Parse).
Local Abbreviation update := (update base64_decode).
Local Abbreviation updater_pass := (updater_pass time_Parse base64_decode).
Local Abbreviation updater := (updater time_Parse base64_decode).

Ltac list_mem :=
  repeat (rewrite ?elem_of_cons, ?elem_of_nil in * );
  try solve [intuition (try discriminate; eauto)].

(** The events of [update] depend on the filter through its list
    descriptor only, not through what the store holds. *)
Lemma update_events_store c f f' :
  GFWList_ f' = GFWList_ f -> snd (update c f') = snd (update c f).
Proof.
  intros Hg. unfold update. rewrite Hg. repeat case_match; reflexivity.
Qed.

Lemma update_no_head c f key : HeadObject key ∉ snd (update c f).
Proof. unfold update. repeat case_match; cbn; list_mem. Qed.

(** A manual flush goes straight to the update: the metadata of the
    stored copy is not looked up, what the pass does is the same
    whatever the store holds, and the remote list is fetched whenever
    the request can be built. *)
Theorem manual_flush_ignores_staleness (c : Cycle) (f : Filter) :
  (forall key, HeadObject key ∉ snd (updater_pass Manual c f)) /\
  (forall f', GFWList_ f' = GFWList_ f ->
              snd (updater_pass Manual c f') = snd (updater_pass Manual c f)) /\
  (new_request_fails c = false ->
   RoundTrip_ (URL (GFWList_ f)) ∈ snd (updater_pass Manual c f)).
Proof.
  unfold updater_pass. split; [|split].
  - intros key. pose proof (update_no_head c f key) as Hn.
    destruct (update c f) as [f1 evs]. cbn in *. list_mem.
  - intros f' Hg. pose proof (update_events_store c f f' Hg) as He.
    destruct (update c f') as [f1' evs'], (update c f) as [f1 evs]. cbn in *. now rewrite He.
  - intros Hn. pose proof (AutoproxyProps.update_fetches time_Parse base64_decode c f Hn) as Hin.
    destruct (update c f) as [f1 evs]. cbn in *. list_mem.
Qed.

(** *** The store outside the list's own key *)

Lemma update_other_keys c f key :
  key <> Filename (GFWList_ f) ->
  Store (fst (update c f)) !! key = Store f !! key.
Proof.
  intros Hk. unfold update, set_Store.
  repeat case_match; cbn; try reflexivity.
  - now rewrite lookup_delete_ne.
  - rewrite lookup_insert_ne by congruence. now rewrite lookup_delete_ne.
Qed.

Lemma updater_pass_other_keys tr c f key :
  key <> Filename (GFWList_ f) ->
  Store (fst (updater_pass tr c f)) !! key = Store f !! key.
Proof.
  intros Hk. pose proof (update_other_keys c f key Hk) as Hu.
  unfold updater_pass. destruct tr.
  - now destruct (update c f).
  - destruct (stale c f) as [evs|[|]]; cbn; try reflexivity.
    now destruct (update c f).
Qed.

(** However long the updater runs and whatever fails, it reads and
    writes the store under the list's file name only: every other
    object is as it was. *)
Theorem updater_touches_own_key_only (inputs : list (Trigger * Cycle)) (f : Filter)
        (key : string) :
  key <> Filename (GFWList_ f) ->
  Store (fst (updater inputs f)) !! key = Store f !! key.
Proof.
  revert f. induction inputs as [|[tr c] rest IH]; intros f Hk; cbn; [reflexivity|].
  pose proof (updater_pass_other_keys tr c f key Hk) as Hp.
  pose proof (AutoproxyProps.updater_pass_fields time_Parse base64_decode tr c f)
    as (_ & _ & Hg & _).
  destruct (updater_pass tr c f) as [f1 evs]. cbn in Hp, Hg.
  specialize (IH f1). rewrite Hg in IH. specialize (IH Hk).
  destruct (Autoproxy.updater time_Parse base64_decode rest f1) as [f2 evs']. cbn in *.
  congruence.
Qed.

(** *** One fetch per trigger *)

Lemma fetches_app evs evs' : fetches (evs ++ evs') = (fetches evs ++ fetches evs')%list.
Proof. unfold fetches. apply filter_app. Qed.

Lemma update_fetches_once c f :
  (length (fetches (snd (update c f))) <= 1)%nat /\
  Forall (fun ev => ev = RoundTrip_ (URL (GFWList_ f))) (fetches (snd (update c f))).
Proof.
  unfold update, fetches.
  repeat case_match; cbn [snd];
    repeat first [ rewrite filter_cons_True by reflexivity
                 | rewrite filter_cons_False by discriminate
                 | rewrite filter_nil ];
    cbn; split; try lia; repeat constructor.
Qed.

Lemma stale_no_fetch c f evs : stale c f = inl evs -> fetches evs = [].
Proof.
  unfold stale, fetches. repeat case_match; intros [= <-];
    repeat first [ rewrite filter_cons_False by discriminate | rewrite filter_nil ];
    reflexivity.
Qed.

Lemma fetches_skip ev evs : is_fetch ev = false -> fetches (ev :: evs) = fetches evs.
Proof.
  intros He. unfold fetches. apply filter_cons_False. rewrite He. discriminate.
Qed.

Lemma updater_pass_fetches_once tr c f :
  (length (fetches (snd (updater_pass tr c f))) <= 1)%nat /\
  Forall (fun ev => ev = RoundTrip_ (URL (GFWList_ f))) (fetches (snd (updater_pass tr c f))).
Proof.
  pose proof (update_fetches_once c f) as [Hl Hf].
  unfold updater_pass. destruct tr.
  - destruct (update c f) as [f1 evs]. cbn [snd] in *.
    rewrite fetches_skip by reflexivity. auto.
  - destruct (stale c f) as [evs0|[|]] eqn:Est; cbn [snd].
    + rewrite (stale_no_fetch _ _ _ Est). cbn. split; [lia | constructor].
    + destruct (update c f) as [f1 evs]. cbn [snd] in *.
      rewrite fetches_skip by reflexivity. auto.
    + rewrite fetches_skip by reflexivity. cbn. split; [lia | constructor].
Qed.

(** A trigger causes one remote fetch at most, and always of the
    configured URL: over any run of the updater there are no more
    fetches than triggers. *)
Theorem one_fetch_per_trigger (inputs : list (Trigger * Cycle)) (f : Filter) :
  (length (fetches (snd (updater inputs f))) <= length inputs)%nat /\
  Forall (fun ev => ev = RoundTrip_ (URL (GFWList_ f))) (fetches (snd (updater inputs f))).
Proof.
  revert f. induction inputs as [|[tr c] rest IH]; intros f; cbn [Autoproxy.updater].
  - cbn. split; [lia | constructor].
  - pose proof (updater_pass_fetches_once tr c f) as [Hl Hf].
    pose proof (AutoproxyProps.updater_pass_fields time_Parse base64_decode tr c f)
      as (_ & _ & Hg & _).
    destruct (updater_pass tr c f) as [f1 evs]. cbn [fst snd] in Hl, Hf, Hg.
    destruct (IH f1) as [Hl' Hf']. rewrite Hg in Hf'.
    destruct (Autoproxy.updater time_Parse base64_decode rest f1) as [f2 evs'].
    cbn [snd length] in *.
    rewrite fetches_app, length_app. split; [lia|].
    apply Forall_app. auto.
Qed.

(** *** An update followed by a tick *)


End WithLibraries.

Lemma updater_touches_own_key_only_witness :
  "other.json" <> Filename (GFWList_ MoreSamples.filter_two) /\
  Store (fst (updater Samples.time_Parse Samples.base64_decode
                      [(Manual, Samples.cycle_put_fails 9000); (Tick, Samples.cycle_ok 20000)]
                      MoreSamples.filter_two)) !! "other.json"
  = Some {| LastModified := "1000"; Body := "{}" |}.
Proof.
  assert ("other.json" <> Filename (GFWList_ MoreSamples.filter_two)) as Hk by discriminate.
  split; [exact Hk|].
  rewrite (updater_touches_own_key_only Samples.time_Parse Samples.base64_decode
             [(Manual, Samples.cycle_put_fails 9000); (Tick, Samples.cycle_ok 20000)]
             MoreSamples.filter_two "other.json" Hk).
  vm_compute. reflexivity.
Defined.


End AutoproxyMore.
